(** * tcping: a shallow embedding of [tcping.c] and its specification

  [tcping.c] is one C function, [main], that parses its command line with
  [getopt] and [strtol], resolves a host name, issues a non-blocking
  [connect], waits with [select] and reads the pending socket error with
  [getsockopt].  The embedding below follows [main] statement by statement.

  - C integers are [Z] with the conversions written out (LP64: [long] has
    64 bits, [int] 32 bits, [in_port_t] 16 bits; signed arithmetic wraps).
  - The C library functions [strtol], [getopt] and [htons] are modelled
    after ISO C and the GNU C library: [getopt] permutes [argv] as
    glibc does by default (POSIXLY_CORRECT unset), so that options
    are taken wherever they stand and the operands end up last.
  - The operating system is an oracle, the record [world]: it answers
    [gethostbyname], [socket], [connect], [select] and [getsockopt].
  - A run of the program is the chronological list of the calls and writes
    it performs (its [trace]) together with the way it ends (its
    [result]). *)

From Stdlib Require Import ZArith List String Ascii Bool Lia.
Import ListNotations.

Local Open Scope Z_scope.
Local Open Scope list_scope.

(* ------------------------------------------------------------------ *)
(** ** C integer types *)

Module C.

Definition LONG_MAX : Z := 2 ^ 63 - 1.
Definition LONG_MIN : Z := - 2 ^ 63.

(** Conversion to a signed integer of [bits] bits (two's complement). *)
Definition wrap_signed (bits z : Z) : Z :=
  (z + 2 ^ (bits - 1)) mod 2 ^ bits - 2 ^ (bits - 1).

Definition to_long : Z -> Z := wrap_signed 64.
Definition to_int : Z -> Z := wrap_signed 32.

(** Conversion to [uint16_t] ([in_port_t], [sa_family_t]). *)
Definition to_uint16 (z : Z) : Z := z mod 2 ^ 16.

Definition in_long (z : Z) : Prop := LONG_MIN <= z <= LONG_MAX.

(** The truth value of a C scalar used as a condition. *)
Definition truthy (z : Z) : bool := negb (z =? 0).

End C.

(* ------------------------------------------------------------------ *)
(** ** The C library: [strtol], [htons], [getopt] *)

Module Libc.

Definition nl : string := String (ascii_of_nat 10) EmptyString.

Definition isspace (c : ascii) : bool :=
  let n := nat_of_ascii c in
  (Nat.eqb n 32 || (Nat.leb 9 n && Nat.leb n 13))%bool.

Definition digit_val (c : ascii) : option Z :=
  let n := Z.of_nat (nat_of_ascii c) in
  if ((48 <=? n) && (n <=? 57))%bool then Some (n - 48) else None.

Fixpoint skip_space (s : string) : string :=
  match s with
  | String c s' => if isspace c then skip_space s' else s
  | EmptyString => s
  end.

(** The longest run of decimal digits at the head of [s], as a number;
    [None] when [s] does not start with a digit and none was [seen]. *)
Fixpoint digits (s : string) (acc : Z) (seen : bool) : option Z :=
  match s with
  | String c s' =>
      match digit_val c with
      | Some d => digits s' (10 * acc + d) true
      | None => if seen then Some acc else None
      end
  | EmptyString => if seen then Some acc else None
  end.

(** The subject sequence of [strtol (s, &end, 10)]: white space, an
    optional sign, decimal digits.  [None] is "no conversion", for which
    the C library stores [end = s]. *)
Definition strtol_exact (s : string) : option Z :=
  match skip_space s with
  | String c s' =>
      if Ascii.eqb c "-" then option_map Z.opp (digits s' 0 false)
      else if Ascii.eqb c "+" then digits s' 0 false
      else digits (String c s') 0 false
  | EmptyString => None
  end.

Definition clamp_long (z : Z) : Z :=
  if z <? C.LONG_MIN then C.LONG_MIN
  else if C.LONG_MAX <? z then C.LONG_MAX
  else z.

(** [strtol (s, &end, 10)]: [None] when [end == s], else the value,
    which is [LONG_MIN] or [LONG_MAX] when out of range. *)
Definition strtol (s : string) : option Z :=
  option_map clamp_long (strtol_exact s).

(** [htons]: the two bytes of a port as they lie in memory, most
    significant first. *)
Definition htons (hostshort : Z) : Z * Z :=
  let v := C.to_uint16 hostshort in (v / 256, v mod 256).

Definition ntohs (netshort : Z * Z) : Z :=
  fst netshort * 256 + snd netshort.

(** What one call of [getopt] returns: an option letter, an option letter
    with its argument ([optarg]), or ['?']. *)
Inductive getopt_ret : Type :=
| Opt (c : ascii)
| OptArg (c : ascii) (optarg : string)
| OptErr.

(** Is [c] an option letter of [optstring], and does it take an
    argument? *)
Fixpoint optspec (optstring : string) (c : ascii) : option bool :=
  match optstring with
  | EmptyString => None
  | String o rest =>
      if (Ascii.eqb o c && negb (Ascii.eqb c ":"))%bool then
        Some (match rest with String ":" _ => true | _ => false end)
      else optspec rest c
  end.

(** The returns of [getopt] while it walks through the letters [cs] of
    one [argv] element; [next] is the following element.  The boolean
    tells whether [next] was consumed as an option argument. *)
Fixpoint getopt_cluster (optstring cs : string) (next : option string)
  : list getopt_ret * bool :=
  match cs with
  | EmptyString => ([], false)
  | String c rest =>
      match optspec optstring c with
      | None =>
          let (r, used) := getopt_cluster optstring rest next in
          (OptErr :: r, used)
      | Some false =>
          let (r, used) := getopt_cluster optstring rest next in
          (Opt c :: r, used)
      | Some true =>
          match rest with
          | EmptyString =>
              match next with
              | Some a => ([OptArg c a], true)
              | None => ([OptErr], false)
              end
          | _ => ([OptArg c rest], false)
          end
      end
  end.

(** An [argv] element that [getopt] takes for an operand: it does not
    start with ['-'], or it is ["-"] alone. *)
Definition operand (a : string) : bool :=
  match a with
  | String c (String _ _) => negb (Ascii.eqb c "-")
  | _ => true
  end.

Definition tail (a : string) : string :=
  match a with
  | String _ b => b
  | EmptyString => EmptyString
  end.

(** One scan of [getopt (argc, argv, optstring)] over [args], the
    elements of [argv] not yet looked at, up to its first [-1].  glibc
    skips the operands it meets and goes on, stops at ["--"], and moves
    the elements it has consumed in front of the operands.  The scan
    gives the successive returns, the elements consumed (options, their
    arguments, ["--"]) and the operands, each in the order of [argv]. *)
Fixpoint getopt_scan (optstring : string) (args : list string)
  : list getopt_ret * list string * list string :=
  match args with
  | [] => ([], [], [])
  | a :: rest =>
      if operand a then
        let '(rets, words, operands) := getopt_scan optstring rest in
        (rets, words, a :: operands)
      else if String.eqb a "--" then ([], [a], rest)
      else
        let (r, used) := getopt_cluster optstring (tail a) (hd_error rest) in
        match rest with
        | next :: rest' =>
            if used then
              let '(more, words, operands) := getopt_scan optstring rest' in
              (r ++ more, a :: next :: words, operands)
            else
              let '(more, words, operands) := getopt_scan optstring rest in
              (r ++ more, a :: words, operands)
        | [] => (r, [a], [])
        end
  end.

(** The successive returns of [getopt] up to its first [-1], and the
    value of [optind] at that point: the index of the first operand in
    the permuted [argv].  [optind] is its value before the first call. *)
Definition getopt_seq (optstring : string) (args : list string) (optind : nat)
  : list getopt_ret * nat :=
  let '(rets, words, _) := getopt_scan optstring args in
  (rets, (optind + List.length words)%nat).

(** [argv] as [getopt] leaves it: the program name, the elements
    consumed, the operands. *)
Definition getopt_argv (optstring prog : string) (args : list string)
  : list string :=
  let '(_, words, operands) := getopt_scan optstring args in
  prog :: words ++ operands.

End Libc.

(* ------------------------------------------------------------------ *)
(** ** The operating system and the runs of the program *)

Module Sys.

(** Values of <errno.h>, <sys/socket.h> and <fcntl.h> on Linux.  No proof
    below depends on the numbers. *)
Definition EBADF : Z := 9.
Definition EINPROGRESS : Z := 115.
Definition AF_INET : Z := 2.
Definition SOCK_STREAM : Z := 1.

Record hostent : Type := {
  h_addrtype : Z;
  h_length : Z;
  h_addr : list Z          (* h_addr_list[0], a sequence of bytes *)
}.

Record sockaddr_in : Type := {
  sin_family : Z;
  sin_port : Z * Z;        (* two bytes, network byte order *)
  sin_addr : list Z
}.

Record timeval : Type := { tv_sec : Z; tv_usec : Z }.

(** An [fd_set], as the list of the descriptors that are set. *)
Definition fd_set : Type := list Z.
Definition FD_ZERO : fd_set := [].
Definition FD_SET (fd : Z) (s : fd_set) : fd_set := fd :: s.
Definition FD_ISSET (fd : Z) (s : fd_set) : bool := existsb (Z.eqb fd) s.

Inductive stream : Type := stdout | stderr.

Inductive event : Type :=
| EvGetoptDiag                                  (* getopt's own complaint on stderr *)
| EvWrite (f : stream) (text : string)          (* fprintf *)
| EvGethostbyname (name : string)
| EvSocket (domain type protocol : Z)
| EvFcntl (fd : Z)
| EvConnect (fd : Z) (addr : sockaddr_in)
| EvSelect (nfds : Z) (timeout : option timeval)   (* [None] is a NULL timeout *)
| EvGetsockopt (fd : Z)
| EvClose (fd : Z).

(** The answers of the system.  Each function takes the arguments of the
    call it answers. *)
Record world : Type := {
  (** the host entry, or the value left in [h_errno] *)
  w_gethostbyname : string -> hostent + Z;
  w_hstrerror : Z -> string;
  w_strerror : Z -> string;
  (** the new descriptor, or -1 *)
  w_socket : Z;
  (** return value and [errno] *)
  w_connect : Z -> sockaddr_in -> Z * Z;
  (** return value and the two sets as [select] leaves them *)
  w_select : Z -> fd_set -> fd_set -> option timeval -> Z * fd_set * fd_set;
  (** return value, the value stored in [error], and [errno] *)
  w_getsockopt : Z -> Z * Z * Z
}.

Inductive outcome : Type :=
| Exited (code : Z)      (* [exit (code)] or [return code] from [main] *)
| Undefined.             (* a NULL pointer was handed to the C library *)

Record run : Type := { trace : list event; result : outcome }.

Definition exit (code : Z) : run := {| trace := []; result := Exited code |}.
Definition undefined : run := {| trace := []; result := Undefined |}.

(** Perform [e], then continue as [k]. *)
Definition emit (e : event) (k : run) : run :=
  {| trace := e :: trace k; result := result k |}.

(** The exit status a parent process sees: the low 8 bits. *)
Definition wait_status (code : Z) : Z := code mod 256.

End Sys.

(* ------------------------------------------------------------------ *)
(** ** [tcping.c] *)

Module Tcping.
Import C Libc Sys.

Local Notation "a +++ b" := (String.append a b)
  (at level 60, right associativity).

(** The macro [log (verbosity, stream, fmt, ...)]. *)
Definition log (verbosity : Z) (f : stream) (text : string) (k : run) : run :=
  if truthy verbosity then emit (EvWrite f text) k else k.

Definition usage_text (prog : string) : string :=
  "error: Usage: " +++ prog +++
  " [-q] [-t timeout_sec] [-u timeout_usec] <host> <port>" +++ nl.

(** [void usage (char *prog)] *)
Definition usage (prog : string) : run :=
  emit (EvWrite stderr (usage_text prog)) (exit (-1)).

Definition resolver_text (w : world) (h_errno : Z) : string :=
  "error: " +++ w_hstrerror w h_errno +++ nl.
Definition connect_error_text (w : world) (host port : string) (errno : Z) : string :=
  "error: " +++ host +++ " port " +++ port +++ ": " +++ w_strerror w errno +++ nl.
Definition getsockopt_error_text (w : world) (host port : string) (errno : Z) : string :=
  "error: " +++ host +++ " port " +++ port +++ ": getsockopt: " +++
  w_strerror w errno +++ nl.
Definition timeout_text (host port : string) : string :=
  host +++ " port " +++ port +++ " user timeout." +++ nl.
Definition closed_text (host port : string) : string :=
  host +++ " port " +++ port +++ " closed." +++ nl.
Definition open_text (host port : string) : string :=
  host +++ " port " +++ port +++ " open." +++ nl.
Definition not_set_text : string := "error: select: sockfd not set" +++ nl.

(** The locals of [main] that the option loop assigns. *)
Record options : Type := {
  verbosity : Z;
  timeout_sec : Z;
  timeout_usec : Z
}.

Definition initial_options : options :=
  {| verbosity := 1; timeout_sec := 0; timeout_usec := 0 |}.

Inductive loop_result : Type :=
| LoopDone (o : options)           (* [getopt] returned -1 *)
| LoopUsage (diag : list event).   (* [usage] was called *)

(** [while ((c = getopt (argc, argv, "qt:u:")) != -1) switch (c) ...],
    over the successive returns of [getopt]. *)
Fixpoint getopt_loop (rets : list getopt_ret) (o : options) : loop_result :=
  match rets with
  | [] => LoopDone o
  | Opt c :: more =>
      if Ascii.eqb c "q" then
        getopt_loop more
          {| verbosity := 0; timeout_sec := timeout_sec o;
             timeout_usec := timeout_usec o |}
      else LoopUsage []
  | OptArg c optarg :: more =>
      if Ascii.eqb c "t" then
        match strtol optarg with
        | None => LoopUsage []
        | Some v =>
            getopt_loop more
              {| verbosity := verbosity o; timeout_sec := v;
                 timeout_usec := timeout_usec o |}
        end
      else if Ascii.eqb c "u" then
        match strtol optarg with
        | None => LoopUsage []
        | Some v =>
            getopt_loop more
              {| verbosity := verbosity o; timeout_sec := timeout_sec o;
                 timeout_usec := v |}
        end
      else LoopUsage []
  | OptErr :: _ => LoopUsage [EvGetoptDiag]
  end.

(** Lines 113-114: the [struct timeval] handed to [select]. *)
Definition make_timeout (o : options) : timeval :=
  {| tv_sec := to_long (timeout_sec o + Z.quot (timeout_usec o) 1000000);
     tv_usec := Z.rem (timeout_usec o) 1000000 |}.

(** Line 117: [timeout.tv_sec + timeout.tv_usec > 0 ? &timeout : NULL]. *)
Definition combined (tv : timeval) : Z := to_long (tv_sec tv + tv_usec tv).

Definition select_timeout (tv : timeval) : option timeval :=
  if combined tv >? 0 then Some tv else None.

(** Lines 146-150. *)
Definition established (o : options) (hostarg portarg : string) (sockfd : Z) : run :=
  emit (EvClose sockfd)
    (log (verbosity o) stdout (open_text hostarg portarg) (exit 0)).

(** Lines 100-150: from [socket] on. *)
Definition probe (o : options) (hostarg portarg : string) (addr : sockaddr_in)
    (w : world) : run :=
  let sockfd := w_socket w in
  emit (EvSocket AF_INET SOCK_STREAM 0)
 (emit (EvFcntl sockfd)
 (emit (EvConnect sockfd addr)
   (let '(ret, errno) := w_connect w sockfd addr in
    if truthy ret then
      if negb (errno =? EINPROGRESS) then
        log (verbosity o) stderr (connect_error_text w hostarg portarg errno)
          (exit (-1))
      else
        let fdrset := FD_SET sockfd FD_ZERO in
        let fdwset := fdrset in
        let timeout := make_timeout o in
        let tmo := select_timeout timeout in
        emit (EvSelect (sockfd + 1) tmo)
          (let '(ret, fdrset, fdwset) :=
             w_select w (sockfd + 1) fdrset fdwset tmo in
           if ret =? 0 then
             emit (EvClose sockfd)
               (log (verbosity o) stdout (timeout_text hostarg portarg) (exit 2))
           else if (FD_ISSET sockfd fdrset || FD_ISSET sockfd fdwset)%bool then
             emit (EvGetsockopt sockfd)
               (let '(ret, error, errno) := w_getsockopt w sockfd in
                if truthy ret then
                  log (verbosity o) stderr
                    (getsockopt_error_text w hostarg portarg errno)
                    (emit (EvClose sockfd) (exit (-1)))
                else if truthy error then
                  log (verbosity o) stdout (closed_text hostarg portarg)
                    (emit (EvClose sockfd) (exit 1))
                else established o hostarg portarg sockfd)
           else
             log (verbosity o) stderr not_set_text (exit (-1)))
    else established o hostarg portarg sockfd))).

(** Lines 81-98: resolve [argv[optind]], then read the port from
    [argv[optind + 1]]. *)
Definition resolve_and_probe (o : options) (argv : list string) (optind : nat)
    (w : world) : run :=
  let prog := nth 0 argv EmptyString in
  match nth_error argv optind with
  | None => undefined                       (* gethostbyname (NULL) *)
  | Some hostarg =>
      emit (EvGethostbyname hostarg)
        match w_gethostbyname w hostarg with
        | inr h_errno =>
            log (verbosity o) stderr (resolver_text w h_errno) (exit (-1))
        | inl host =>
            match nth_error argv (S optind) with
            | None => usage prog
            | Some portarg =>
                match strtol portarg with
                | None => usage prog
                | Some v =>
                    let port := to_int v in
                    probe o hostarg portarg
                      {| sin_family := to_uint16 (h_addrtype host);
                         sin_port := htons port;
                         sin_addr := firstn (Z.to_nat (h_length host)) (h_addr host) |}
                      w
                end
            end
        end
  end.

(** [argv] after the option loop. *)
Definition permuted (prog : string) (args : list string) : list string :=
  getopt_argv "qt:u:" prog args.

(** [int main (int argc, char *argv[])], with [argv = prog :: args]. *)
Definition main (prog : string) (args : list string) (w : world) : run :=
  let argv := prog :: args in
  let argc := Z.of_nat (List.length argv) in
  if argc <? 3 then usage prog
  else
    let (rets, optind) := getopt_seq "qt:u:" args 1 in
    match getopt_loop rets initial_options with
    | LoopUsage diag =>
        {| trace := diag ++ trace (usage prog); result := result (usage prog) |}
    | LoopDone o => resolve_and_probe o (permuted prog args) optind w
    end.

(** *** Vocabulary of the statements *)

(** The option loop of [main] on a command line: how the loop ends, and
    [optind] after it. *)
Definition parse (args : list string) : loop_result * nat :=
  let (rets, optind) := getopt_seq "qt:u:" args 1 in
  (getopt_loop rets initial_options, optind).

(** A command line that [main] accepts: the options parse to [o], and
    in the permuted [argv] the elements [argv[optind]] and
    [argv[optind + 1]] are the host and a port from which [strtol] reads
    the value [port]. *)
Definition invocation (prog : string) (args : list string) (o : options)
    (hostarg portarg : string) (port : Z) : Prop :=
  exists optind,
    parse args = (LoopDone o, optind) /\
    nth_error (permuted prog args) optind = Some hostarg /\
    nth_error (permuted prog args) (S optind) = Some portarg /\
    strtol portarg = Some port.

(** The address [main] builds from a host entry and the value of the port
    argument. *)
Definition address (host : hostent) (port : Z) : sockaddr_in :=
  {| sin_family := to_uint16 (h_addrtype host);
     sin_port := htons (to_int port);
     sin_addr := firstn (Z.to_nat (h_length host)) (h_addr host) |}.

Definition is_write (e : event) : bool :=
  match e with
  | EvWrite _ _ => true
  | _ => false
  end.

(** What a run prints, and the calls it makes. *)
Definition writes (tr : list event) : list event := filter is_write tr.
Definition calls (tr : list event) : list event :=
  filter (fun e => negb (is_write e)) tr.

(** [log] as the list of events it adds. *)
Definition said (verbosity : Z) (f : stream) (text : string) : list event :=
  if truthy verbosity then [EvWrite f text] else [].

Definition creates_socket (tr : list event) : Prop :=
  exists d t p, In (EvSocket d t p) tr.
Definition resolves_name (tr : list event) : Prop :=
  exists name, In (EvGethostbyname name) tr.
Definition connects (tr : list event) : Prop :=
  exists fd addr, In (EvConnect fd addr) tr.

(** POSIX: [select] returns 0 only when its timeout expires, so never
    when the timeout is NULL. *)
Definition select_needs_deadline (w : world) : Prop :=
  forall nfds rd wr, fst (fst (w_select w nfds rd wr None)) <> 0.

(** The three calls every run of [probe] starts with. *)
Definition prelude (w : world) (addr : sockaddr_in) : list event :=
  [EvSocket AF_INET SOCK_STREAM 0; EvFcntl (w_socket w);
   EvConnect (w_socket w) addr].

(** The call of [select] that [probe] makes when [connect] is pending. *)
Definition select_event (w : world) (o : options) : event :=
  EvSelect (w_socket w + 1) (select_timeout (make_timeout o)).

Definition select_answer (w : world) (o : options) : Z * fd_set * fd_set :=
  w_select w (w_socket w + 1) [w_socket w] [w_socket w]
    (select_timeout (make_timeout o)).

(** [o] with [verbosity = 0]. *)
Definition quiet (o : options) : options :=
  {| verbosity := 0; timeout_sec := timeout_sec o;
     timeout_usec := timeout_usec o |}.

(** *** The paths of a run *)

(** The ways [probe] can go after its first three calls: what the system
    answered, the events that follow, and the exit code. *)
Inductive probe_path (o : options) (h p : string) (addr : sockaddr_in)
    (w : world) : list event -> Z -> Prop :=
| PathImmediate errno :
    w_connect w (w_socket w) addr = (0, errno) ->
    probe_path o h p addr w
      ([EvClose (w_socket w)] ++ said (verbosity o) stdout (open_text h p)) 0
| PathConnectError ret errno :
    w_connect w (w_socket w) addr = (ret, errno) ->
    ret <> 0 -> errno <> EINPROGRESS ->
    probe_path o h p addr w
      (said (verbosity o) stderr (connect_error_text w h p errno)) (-1)
| PathTimeout ret rd wr :
    w_connect w (w_socket w) addr = (ret, EINPROGRESS) -> ret <> 0 ->
    select_answer w o = (0, rd, wr) ->
    probe_path o h p addr w
      ([select_event w o; EvClose (w_socket w)] ++
       said (verbosity o) stdout (timeout_text h p)) 2
| PathNotReady ret sret rd wr :
    w_connect w (w_socket w) addr = (ret, EINPROGRESS) -> ret <> 0 ->
    select_answer w o = (sret, rd, wr) -> sret <> 0 ->
    (FD_ISSET (w_socket w) rd || FD_ISSET (w_socket w) wr)%bool = false ->
    probe_path o h p addr w
      ([select_event w o] ++ said (verbosity o) stderr not_set_text) (-1)
| PathGetsockoptError ret sret rd wr gret error errno :
    w_connect w (w_socket w) addr = (ret, EINPROGRESS) -> ret <> 0 ->
    select_answer w o = (sret, rd, wr) -> sret <> 0 ->
    (FD_ISSET (w_socket w) rd || FD_ISSET (w_socket w) wr)%bool = true ->
    w_getsockopt w (w_socket w) = (gret, error, errno) -> gret <> 0 ->
    probe_path o h p addr w
      ([select_event w o; EvGetsockopt (w_socket w)] ++
       said (verbosity o) stderr (getsockopt_error_text w h p errno) ++
       [EvClose (w_socket w)]) (-1)
| PathClosed ret sret rd wr error errno :
    w_connect w (w_socket w) addr = (ret, EINPROGRESS) -> ret <> 0 ->
    select_answer w o = (sret, rd, wr) -> sret <> 0 ->
    (FD_ISSET (w_socket w) rd || FD_ISSET (w_socket w) wr)%bool = true ->
    w_getsockopt w (w_socket w) = (0, error, errno) -> error <> 0 ->
    probe_path o h p addr w
      ([select_event w o; EvGetsockopt (w_socket w)] ++
       said (verbosity o) stdout (closed_text h p) ++ [EvClose (w_socket w)]) 1
| PathOpen ret sret rd wr errno :
    w_connect w (w_socket w) addr = (ret, EINPROGRESS) -> ret <> 0 ->
    select_answer w o = (sret, rd, wr) -> sret <> 0 ->
    (FD_ISSET (w_socket w) rd || FD_ISSET (w_socket w) wr)%bool = true ->
    w_getsockopt w (w_socket w) = (0, 0, errno) ->
    probe_path o h p addr w
      ([select_event w o; EvGetsockopt (w_socket w); EvClose (w_socket w)] ++
       said (verbosity o) stdout (open_text h p)) 0.

(** [argv[optind + 1]] is missing or [strtol] reads no number from it. *)
Definition bad_port (argv : list string) (optind : nat) : Prop :=
  match nth_error argv (S optind) with
  | None => True
  | Some p => strtol p = None
  end.

(** The ways [main] can go. *)
Inductive main_path (prog : string) (args : list string) (w : world)
  : list event -> outcome -> Prop :=
| MainShort :
    (List.length args < 2)%nat ->
    main_path prog args w [EvWrite stderr (usage_text prog)] (Exited (-1))
| MainBadOption diag optind :
    (2 <= List.length args)%nat ->
    parse args = (LoopUsage diag, optind) ->
    diag = [] \/ diag = [EvGetoptDiag] ->
    main_path prog args w
      (diag ++ [EvWrite stderr (usage_text prog)]) (Exited (-1))
| MainNoHost o optind :
    (2 <= List.length args)%nat ->
    parse args = (LoopDone o, optind) ->
    nth_error (permuted prog args) optind = None ->
    main_path prog args w [] Undefined
| MainUnresolved o optind h h_errno :
    (2 <= List.length args)%nat ->
    parse args = (LoopDone o, optind) ->
    nth_error (permuted prog args) optind = Some h ->
    w_gethostbyname w h = inr h_errno ->
    main_path prog args w
      (EvGethostbyname h :: said (verbosity o) stderr (resolver_text w h_errno))
      (Exited (-1))
| MainNoPort o optind h host :
    (2 <= List.length args)%nat ->
    parse args = (LoopDone o, optind) ->
    nth_error (permuted prog args) optind = Some h ->
    w_gethostbyname w h = inl host ->
    bad_port (permuted prog args) optind ->
    main_path prog args w
      [EvGethostbyname h; EvWrite stderr (usage_text prog)] (Exited (-1))
| MainProbe o h p v host tail code :
    invocation prog args o h p v ->
    w_gethostbyname w h = inl host ->
    probe_path o h p (address host v) w tail code ->
    main_path prog args w
      (EvGethostbyname h :: prelude w (address host v) ++ tail) (Exited code).

(** The kinds of events. *)
Inductive kind : Type :=
| KDiag | KWrite | KLookup | KSocket | KFcntl | KConnect | KSelect
| KGetsockopt | KClose.

Definition kind_of (e : event) : kind :=
  match e with
  | EvGetoptDiag => KDiag
  | EvWrite _ _ => KWrite
  | EvGethostbyname _ => KLookup
  | EvSocket _ _ _ => KSocket
  | EvFcntl _ => KFcntl
  | EvConnect _ _ => KConnect
  | EvSelect _ _ => KSelect
  | EvGetsockopt _ => KGetsockopt
  | EvClose _ => KClose
  end.

Definition kind_eqb (a b : kind) : bool :=
  match a, b with
  | KDiag, KDiag | KWrite, KWrite | KLookup, KLookup | KSocket, KSocket
  | KFcntl, KFcntl | KConnect, KConnect | KSelect, KSelect
  | KGetsockopt, KGetsockopt | KClose, KClose => true
  | _, _ => false
  end.

(** How many events of kind [k] a trace has. *)
Definition occurrences (k : kind) (tr : list event) : nat :=
  List.length (filter (fun e => kind_eqb (kind_of e) k) tr).

(** What follows the first [close] of a trace. *)
Fixpoint after_close (tr : list event) : list event :=
  match tr with
  | [] => []
  | EvClose _ :: rest => rest
  | _ :: rest => after_close rest
  end.

(** The descriptor an event is about, if any. *)
Definition fd_of (e : event) : option Z :=
  match e with
  | EvFcntl fd | EvConnect fd _ | EvGetsockopt fd | EvClose fd => Some fd
  | EvSelect nfds _ => Some (nfds - 1)
  | _ => None
  end.

End Tcping.

(* ------------------------------------------------------------------ *)
(** ** Concrete systems, for running the program *)

Module Scenario.
Import C Libc Sys Tcping.

Local Open Scope string_scope.

Definition loopback : hostent :=
  {| h_addrtype := AF_INET; h_length := 4; h_addr := [127; 0; 0; 1] |}.

(** 192.0.2.1, an address of the documentation network TEST-NET-1. *)
Definition testnet : hostent :=
  {| h_addrtype := AF_INET; h_length := 4; h_addr := [192; 0; 2; 1] |}.

Definition strerror (errno : Z) : string :=
  if (errno =? 9)%Z then "Bad file descriptor"
  else if (errno =? 101)%Z then "Network is unreachable"
  else if (errno =? 111)%Z then "Connection refused"
  else "Unknown error".

(** A system that answers every call the same way, whatever its
    arguments; [sel] answers [select] from the timeout alone. *)
Definition system (lookup : hostent + Z) (sockfd : Z) (conn : Z * Z)
    (sel : option timeval -> Z * fd_set * fd_set) (sockerr : Z * Z * Z) : world :=
  {| w_gethostbyname := fun _ => lookup;
     w_hstrerror := fun _ => "Unknown host";
     w_strerror := strerror;
     w_socket := sockfd;
     w_connect := fun _ _ => conn;
     w_select := fun _ _ _ tmo => sel tmo;
     w_getsockopt := fun _ => sockerr |}.

(** The socket 3 becomes writable, whatever the timeout. *)
Definition writable : option timeval -> Z * fd_set * fd_set :=
  fun _ => (1, [], [3]).

(** Nothing happens on the socket: [select] returns 0 when it has a
    deadline (and 1 with empty sets when it has none, so that the
    system stays a function). *)
Definition silent : option timeval -> Z * fd_set * fd_set :=
  fun tmo => match tmo with Some _ => (0, [], []) | None => (1, [], []) end.

(** A listener accepts the pending connection. *)
Definition w_listening : world :=
  system (inl loopback) 3 (-1, EINPROGRESS) writable (0, 0, 0).
(** The connection is refused (ECONNREFUSED) while pending. *)
Definition w_refused : world :=
  system (inl loopback) 3 (-1, EINPROGRESS) writable (0, 111, 0).
(** [connect] succeeds at once. *)
Definition w_local : world :=
  system (inl loopback) 3 (0, 0) writable (0, 0, 0).
(** There is no route to the host: [connect] fails with ENETUNREACH. *)
Definition w_unreachable : world :=
  system (inl testnet) 3 (-1, 101) writable (0, 0, 0).
(** The peer never answers. *)
Definition w_silent : world :=
  system (inl loopback) 3 (-1, EINPROGRESS) silent (0, 0, 0).
(** The name does not resolve (HOST_NOT_FOUND). *)
Definition w_unknown_host : world :=
  system (inr 1) 3 (0, 0) writable (0, 0, 0).
(** [socket] fails; [connect] on -1 fails with EBADF. *)
Definition w_no_socket : world :=
  system (inl loopback) (-1) (-1, EBADF) writable (0, 0, 0).

(** [getsockopt] itself fails (EBADF). *)
Definition w_getsockopt_fails : world :=
  system (inl loopback) 3 (-1, EINPROGRESS) writable (-1, 0, 9).

(** [select] fails and leaves both sets as they were; no error is pending
    on the socket. *)
Definition w_select_fails : world :=
  {| w_gethostbyname := fun _ => inl loopback;
     w_hstrerror := fun _ => "Unknown host";
     w_strerror := strerror;
     w_socket := 3;
     w_connect := fun _ _ => (-1, EINPROGRESS);
     w_select := fun _ rd wr _ => (-1, rd, wr);
     w_getsockopt := fun _ => (0, 0, 0) |}.

End Scenario.

(* ------------------------------------------------------------------ *)
(** ** Properties of [tcping.c] *)

Module TcpingSpec.
Import C Libc Sys Tcping Scenario.

(** *** Integer conversions *)

Lemma truthy_true z : z <> 0 -> truthy z = true.
Proof. unfold truthy; intros H; apply Z.eqb_neq in H; now rewrite H. Qed.

Lemma truthy_false : truthy 0 = false.
Proof. reflexivity. Qed.

Lemma to_long_id z : in_long z -> to_long z = z.
Proof.
  unfold in_long, LONG_MIN, LONG_MAX, to_long, wrap_signed; intros H.
  change (64 - 1) with 63.
  rewrite Z.mod_small; lia.
Qed.

Lemma clamp_long_id z : in_long z -> clamp_long z = z.
Proof.
  unfold in_long, clamp_long; intros H.
  destruct (Z.ltb_spec z LONG_MIN); [lia |].
  destruct (Z.ltb_spec LONG_MAX z); [lia | reflexivity].
Qed.

Lemma clamp_long_in_long z : in_long (clamp_long z).
Proof.
  unfold in_long, clamp_long.
  assert (LONG_MIN <= LONG_MAX) by (unfold LONG_MIN, LONG_MAX; lia).
  destruct (Z.ltb_spec z LONG_MIN); [lia |].
  destruct (Z.ltb_spec LONG_MAX z); lia.
Qed.

Lemma to_uint16_to_int z : to_uint16 (to_int z) = z mod 2 ^ 16.
Proof.
  unfold to_uint16, to_int, wrap_signed.
  change (32 - 1) with 31.
  replace ((z + 2 ^ 31) mod 2 ^ 32 - 2 ^ 31)
    with (z - 2 ^ 16 * ((z + 2 ^ 31) / 2 ^ 32) * 2 ^ 16).
  - rewrite Zminus_mod, Z_mod_mult, Z.sub_0_r, Z.mod_mod; lia.
  - rewrite (Z.mod_eq (z + 2 ^ 31) (2 ^ 32)) by lia.
    change (2 ^ 32) with (2 ^ 16 * 2 ^ 16). ring.
Qed.

Lemma ntohs_htons z : ntohs (htons z) = z mod 2 ^ 16.
Proof.
  unfold ntohs, htons, to_uint16; simpl fst; simpl snd.
  pose proof (Z.div_mod (z mod 2 ^ 16) 256). lia.
Qed.

(** The port that [connect] is asked for is the value of the port
    argument modulo 2^16. *)
Lemma address_port host port :
  ntohs (sin_port (address host port)) = port mod 2 ^ 16.
Proof.
  unfold address; simpl sin_port.
  rewrite ntohs_htons. exact (to_uint16_to_int port).
Qed.

(** *** The option loop *)

Lemma list_pair_ind {A} (P : list A -> Prop) :
  P [] -> (forall a, P [a]) ->
  (forall a b l, P l -> P (b :: l) -> P (a :: b :: l)) ->
  forall l, P l.
Proof.
  intros H0 H1 H2 l.
  enough (P l /\ forall a, P (a :: l)) by tauto.
  induction l as [| b l [IHl IHc]]; split; auto.
Qed.

(** The scan keeps every element: consumed or operand. *)
Lemma getopt_scan_length os args :
  (List.length (snd (fst (getopt_scan os args))) +
   List.length (snd (getopt_scan os args)) = List.length args)%nat.
Proof.
  induction args as [| a | a b rest IH1 IH2] using list_pair_ind.
  - reflexivity.
  - simpl. destruct (operand a); [reflexivity |].
    destruct (String.eqb a "--"); [reflexivity |].
    destruct (getopt_cluster os (tail a) None); reflexivity.
  - change (getopt_scan os (a :: b :: rest))
      with (if operand a then
              let '(rets, words, operands) := getopt_scan os (b :: rest) in
              (rets, words, a :: operands)
            else if String.eqb a "--" then ([], [a], b :: rest)
            else
              let (r, used) := getopt_cluster os (tail a) (Some b) in
              if used then
                let '(more, words, operands) := getopt_scan os rest in
                (r ++ more, a :: b :: words, operands)
              else
                let '(more, words, operands) := getopt_scan os (b :: rest) in
                (r ++ more, a :: words, operands)).
    destruct (operand a).
    + destruct (getopt_scan os (b :: rest)) as [[rets words] ops].
      simpl in *; lia.
    + destruct (String.eqb a "--"); [reflexivity |].
      destruct (getopt_cluster os (tail a) (Some b)) as [r used].
      destruct used.
      * destruct (getopt_scan os rest) as [[rets words] ops]. simpl in *; lia.
      * destruct (getopt_scan os (b :: rest)) as [[rets words] ops].
        simpl in *; lia.
Qed.

(** The scan at an operand: it is skipped. *)
Lemma getopt_scan_operand os a rest :
  operand a = true ->
  getopt_scan os (a :: rest) =
  let '(rets, words, operands) := getopt_scan os rest in
  (rets, words, a :: operands).
Proof. intros H; simpl; now rewrite H. Qed.

(** The scan of [tcping] at [-q], at [-t x] and at [-u x]. *)
Lemma getopt_scan_q args :
  getopt_scan "qt:u:" ("-q"%string :: args) =
  let '(more, words, operands) := getopt_scan "qt:u:" args in
  (Opt "q" :: more, "-q"%string :: words, operands).
Proof. destruct args; reflexivity. Qed.

Lemma getopt_scan_t x rest :
  getopt_scan "qt:u:" ("-t"%string :: x :: rest) =
  let '(more, words, operands) := getopt_scan "qt:u:" rest in
  (OptArg "t" x :: more, "-t"%string :: x :: words, operands).
Proof. reflexivity. Qed.

Lemma getopt_scan_u x rest :
  getopt_scan "qt:u:" ("-u"%string :: x :: rest) =
  let '(more, words, operands) := getopt_scan "qt:u:" rest in
  (OptArg "u" x :: more, "-u"%string :: x :: words, operands).
Proof. reflexivity. Qed.

(** [parse] and [permuted] in terms of the scan. *)
Lemma parse_scan args :
  parse args =
  (getopt_loop (fst (fst (getopt_scan "qt:u:" args))) initial_options,
   S (List.length (snd (fst (getopt_scan "qt:u:" args))))).
Proof.
  unfold parse, getopt_seq.
  destruct (getopt_scan "qt:u:" args) as [[rets words] ops]. reflexivity.
Qed.

Lemma permuted_scan prog args :
  permuted prog args =
  prog :: snd (fst (getopt_scan "qt:u:" args)) ++ snd (getopt_scan "qt:u:" args).
Proof.
  unfold permuted, getopt_argv.
  destruct (getopt_scan "qt:u:" args) as [[rets words] ops]. reflexivity.
Qed.

Lemma permuted_length prog args :
  List.length (permuted prog args) = S (List.length args).
Proof.
  rewrite permuted_scan. simpl. rewrite length_app.
  now rewrite getopt_scan_length.
Qed.

Lemma permuted_head prog args : nth 0 (permuted prog args) EmptyString = prog.
Proof. now rewrite permuted_scan. Qed.

Lemma parse_optind args r optind : parse args = (r, optind) -> (1 <= optind)%nat.
Proof.
  rewrite parse_scan. intros H; inversion H; lia.
Qed.

(** Options are taken wherever they stand, up to ["--"]; the operands
    are moved behind them. *)
Example permuted_command_line :
  permuted "tcping" ["a"; "-q"; "b"; "-t"; "5"; "--"; "-u"; "c"]%string =
    ["tcping"; "-q"; "-t"; "5"; "--"; "a"; "b"; "-u"; "c"]%string /\
  parse ["a"; "-q"; "b"; "-t"; "5"; "--"; "-u"; "c"]%string =
    (LoopDone {| verbosity := 0; timeout_sec := 5; timeout_usec := 0 |}, 5%nat).
Proof. split; reflexivity. Qed.

(** An option after the host is still an option: [-q] between host and
    port silences the run, and a port that starts with ['-'] is taken for
    an option. *)
Example option_after_host :
  main "tcping" ["localhost"; "-q"; "80"]%string w_listening =
  main "tcping" ["-q"; "localhost"; "80"]%string w_listening /\
  trace (main "tcping" ["localhost"; "-1"]%string w_listening) =
    [EvGetoptDiag; EvWrite stderr (usage_text "tcping")].
Proof. split; reflexivity. Qed.

(** The loop keeps [verbosity = 0] once it is set. *)
Lemma getopt_loop_quiet rets :
  forall o o',
    getopt_loop rets o = LoopDone o' ->
    getopt_loop rets (quiet o) = LoopDone (quiet o').
Proof.
  induction rets as [| r rets IH]; intros o o' H; simpl in *.
  - now inversion H.
  - destruct r as [c | c optarg |].
    + destruct (Ascii.eqb c "q"); [| discriminate].
      apply IH in H. exact H.
    + destruct (Ascii.eqb c "t").
      * destruct (strtol optarg); [| discriminate].
        apply IH in H. exact H.
      * destruct (Ascii.eqb c "u"); [| discriminate].
        destruct (strtol optarg); [| discriminate].
        apply IH in H. exact H.
    + discriminate.
Qed.

(** A leading [-q] sets [verbosity = 0], moves [optind] by one and
    changes nothing else. *)
Lemma parse_quiet args o optind :
  parse args = (LoopDone o, optind) ->
  parse ("-q"%string :: args) = (LoopDone (quiet o), S optind).
Proof.
  rewrite !parse_scan, getopt_scan_q.
  destruct (getopt_scan "qt:u:" args) as [[rets words] ops].
  cbn [fst snd List.length]. intros H; inversion H as [[Hloop Hoi]].
  change (getopt_loop (Opt "q" :: rets) initial_options)
    with (getopt_loop rets (quiet initial_options)).
  now rewrite (getopt_loop_quiet _ _ _ Hloop).
Qed.

Lemma permuted_quiet prog args i :
  nth_error (permuted prog ("-q"%string :: args)) (S (S i)) =
  nth_error (permuted prog args) (S i).
Proof.
  rewrite !permuted_scan, getopt_scan_q.
  destruct (getopt_scan "qt:u:" args) as [[rets words] ops]. reflexivity.
Qed.

(** *** The runs of [probe], path by path *)

Lemma trace_log v f text k : trace (log v f text k) = said v f text ++ trace k.
Proof. unfold log, said; now destruct (truthy v). Qed.

Lemma result_log v f text k : result (log v f text k) = result k.
Proof. unfold log; now destruct (truthy v). Qed.

Ltac run_probe :=
  unfold probe, established, select_answer, select_event, prelude,
    FD_SET, FD_ZERO in *;
  repeat match goal with
    | H : w_connect _ _ _ = _ |- _ => rewrite H; clear H
    | H : w_select _ _ _ _ _ = _ |- _ => rewrite H; clear H
    | H : w_getsockopt _ _ = _ |- _ => rewrite H; clear H
    | H : ?z <> 0 |- _ => rewrite (truthy_true z H)
    | H : ?z <> 0 |- _ => rewrite (proj2 (Z.eqb_neq z 0) H)
    | H : ?z <> EINPROGRESS |- _ =>
        rewrite (proj2 (Z.eqb_neq z EINPROGRESS) H)
    | H : (_ || _)%bool = _ |- _ => rewrite H; clear H
    end;
  rewrite ?truthy_false, ?Z.eqb_refl;
  cbn [negb trace result emit exit app];
  rewrite ?trace_log, ?result_log;
  cbn [trace result emit exit app].

Lemma probe_immediate o h p addr w errno :
  w_connect w (w_socket w) addr = (0, errno) ->
  trace (probe o h p addr w) =
    prelude w addr ++ [EvClose (w_socket w)] ++
    said (verbosity o) stdout (open_text h p) /\
  result (probe o h p addr w) = Exited 0.
Proof. intros Hc; run_probe; now rewrite app_nil_r. Qed.

Lemma probe_connect_error o h p addr w ret errno :
  w_connect w (w_socket w) addr = (ret, errno) ->
  ret <> 0 -> errno <> EINPROGRESS ->
  trace (probe o h p addr w) =
    prelude w addr ++
    said (verbosity o) stderr (connect_error_text w h p errno) /\
  result (probe o h p addr w) = Exited (-1).
Proof. intros Hc Hret He; run_probe; now rewrite app_nil_r. Qed.

Lemma probe_timeout o h p addr w ret rd wr :
  w_connect w (w_socket w) addr = (ret, EINPROGRESS) -> ret <> 0 ->
  select_answer w o = (0, rd, wr) ->
  trace (probe o h p addr w) =
    prelude w addr ++ [select_event w o; EvClose (w_socket w)] ++
    said (verbosity o) stdout (timeout_text h p) /\
  result (probe o h p addr w) = Exited 2.
Proof. intros Hc Hret Hs; run_probe; now rewrite app_nil_r. Qed.

Lemma probe_not_ready o h p addr w ret sret rd wr :
  w_connect w (w_socket w) addr = (ret, EINPROGRESS) -> ret <> 0 ->
  select_answer w o = (sret, rd, wr) -> sret <> 0 ->
  (FD_ISSET (w_socket w) rd || FD_ISSET (w_socket w) wr)%bool = false ->
  trace (probe o h p addr w) =
    prelude w addr ++ [select_event w o] ++
    said (verbosity o) stderr not_set_text /\
  result (probe o h p addr w) = Exited (-1).
Proof. intros Hc Hret Hs Hsret Hset; run_probe; now rewrite app_nil_r. Qed.

Lemma probe_getsockopt_error o h p addr w ret sret rd wr gret error errno :
  w_connect w (w_socket w) addr = (ret, EINPROGRESS) -> ret <> 0 ->
  select_answer w o = (sret, rd, wr) -> sret <> 0 ->
  (FD_ISSET (w_socket w) rd || FD_ISSET (w_socket w) wr)%bool = true ->
  w_getsockopt w (w_socket w) = (gret, error, errno) -> gret <> 0 ->
  trace (probe o h p addr w) =
    prelude w addr ++ [select_event w o; EvGetsockopt (w_socket w)] ++
    said (verbosity o) stderr (getsockopt_error_text w h p errno) ++
    [EvClose (w_socket w)] /\
  result (probe o h p addr w) = Exited (-1).
Proof. intros Hc Hret Hs Hsret Hset Hg Hgret; run_probe; auto. Qed.

Lemma probe_closed o h p addr w ret sret rd wr error errno :
  w_connect w (w_socket w) addr = (ret, EINPROGRESS) -> ret <> 0 ->
  select_answer w o = (sret, rd, wr) -> sret <> 0 ->
  (FD_ISSET (w_socket w) rd || FD_ISSET (w_socket w) wr)%bool = true ->
  w_getsockopt w (w_socket w) = (0, error, errno) -> error <> 0 ->
  trace (probe o h p addr w) =
    prelude w addr ++ [select_event w o; EvGetsockopt (w_socket w)] ++
    said (verbosity o) stdout (closed_text h p) ++ [EvClose (w_socket w)] /\
  result (probe o h p addr w) = Exited 1.
Proof. intros Hc Hret Hs Hsret Hset Hg Herr; run_probe; auto. Qed.

Lemma probe_open o h p addr w ret sret rd wr errno :
  w_connect w (w_socket w) addr = (ret, EINPROGRESS) -> ret <> 0 ->
  select_answer w o = (sret, rd, wr) -> sret <> 0 ->
  (FD_ISSET (w_socket w) rd || FD_ISSET (w_socket w) wr)%bool = true ->
  w_getsockopt w (w_socket w) = (0, 0, errno) ->
  trace (probe o h p addr w) =
    prelude w addr ++
    [select_event w o; EvGetsockopt (w_socket w); EvClose (w_socket w)] ++
    said (verbosity o) stdout (open_text h p) /\
  result (probe o h p addr w) = Exited 0.
Proof. intros Hc Hret Hs Hsret Hset Hg; run_probe; now rewrite app_nil_r. Qed.

(** *** From [main] to [probe] *)

Lemma main_short prog args w :
  (List.length args < 2)%nat -> main prog args w = usage prog.
Proof.
  intros H; unfold main.
  destruct (Z.ltb_spec (Z.of_nat (List.length (prog :: args))) 3) as [_ | Hge];
    [reflexivity | simpl List.length in Hge; lia].
Qed.

Lemma main_loop prog args w (Hargc : (2 <= List.length args)%nat) :
  main prog args w =
  match parse args with
  | (LoopUsage diag, _) =>
      {| trace := diag ++ [EvWrite stderr (usage_text prog)];
         result := Exited (-1) |}
  | (LoopDone o, optind) => resolve_and_probe o (permuted prog args) optind w
  end.
Proof.
  unfold main, parse.
  destruct (Z.ltb_spec (Z.of_nat (List.length (prog :: args))) 3) as [Hlt | _];
    [simpl List.length in Hlt; lia |].
  destruct (getopt_seq "qt:u:" args 1) as [rets optind].
  destruct (getopt_loop rets initial_options); reflexivity.
Qed.

Lemma invocation_argc prog args o h p v :
  invocation prog args o h p v -> (2 <= List.length args)%nat.
Proof.
  intros (optind & Hparse & _ & Hport & _).
  apply parse_optind in Hparse.
  assert (Hlt : (S optind < List.length (permuted prog args))%nat)
    by (apply nth_error_Some; congruence).
  rewrite permuted_length in Hlt; lia.
Qed.

(** On an accepted command line [main] looks the host up and, when that
    succeeds, runs [probe] on the address built from the answer. *)
Lemma main_invocation prog args o h p v w :
  invocation prog args o h p v ->
  main prog args w =
  emit (EvGethostbyname h)
    match w_gethostbyname w h with
    | inr h_errno => log (verbosity o) stderr (resolver_text w h_errno) (exit (-1))
    | inl host => probe o h p (address host v) w
    end.
Proof.
  intros Hinv. pose proof (invocation_argc _ _ _ _ _ _ Hinv) as Hargc.
  destruct Hinv as (optind & Hparse & Hhost & Hport & Hstrtol).
  rewrite (main_loop _ _ _ Hargc), Hparse.
  unfold resolve_and_probe. rewrite Hhost, Hport, Hstrtol. reflexivity.
Qed.

Lemma main_resolved prog args o h p v w host :
  invocation prog args o h p v ->
  w_gethostbyname w h = inl host ->
  trace (main prog args w) =
    EvGethostbyname h :: trace (probe o h p (address host v) w) /\
  result (main prog args w) = result (probe o h p (address host v) w).
Proof.
  intros Hinv Hres. rewrite (main_invocation _ _ _ _ _ _ w Hinv), Hres.
  split; reflexivity.
Qed.

(** *** Socket release *)

Lemma not_in_said e v f text :
  is_write e = false -> ~ In e (said v f text).
Proof.
  unfold said; intros He; destruct (truthy v); intros Hin;
    [destruct Hin as [<- | []]; discriminate | exact Hin].
Qed.

(** When [connect] fails for good, [main] returns without [close]. *)
Lemma connect_error_never_closes prog args o h p v w host ret errno fd :
  invocation prog args o h p v ->
  w_gethostbyname w h = inl host ->
  w_connect w (w_socket w) (address host v) = (ret, errno) ->
  ret <> 0 -> errno <> EINPROGRESS ->
  ~ In (EvClose fd) (trace (main prog args w)).
Proof.
  intros Hinv Hres Hc Hret He.
  destruct (main_resolved _ _ _ _ _ _ w host Hinv Hres) as [-> _].
  destruct (probe_connect_error o h p _ _ _ _ Hc Hret He) as [-> _].
  intros [Hin | Hin]; [discriminate |].
  apply in_app_or in Hin; destruct Hin as [Hin | Hin].
  - unfold prelude in Hin; simpl in Hin; intuition discriminate.
  - revert Hin; now apply not_in_said.
Qed.

(** When [select] reports activity but not on the socket, [main] exits
    without [close]. *)
Lemma not_ready_never_closes prog args o h p v w host ret sret rd wr fd :
  invocation prog args o h p v ->
  w_gethostbyname w h = inl host ->
  w_connect w (w_socket w) (address host v) = (ret, EINPROGRESS) -> ret <> 0 ->
  select_answer w o = (sret, rd, wr) -> sret <> 0 ->
  (FD_ISSET (w_socket w) rd || FD_ISSET (w_socket w) wr)%bool = false ->
  ~ In (EvClose fd) (trace (main prog args w)).
Proof.
  intros Hinv Hres Hc Hret Hs Hsret Hset.
  destruct (main_resolved _ _ _ _ _ _ w host Hinv Hres) as [-> _].
  destruct (probe_not_ready o h p _ _ _ _ _ _ Hc Hret Hs Hsret Hset) as [-> _].
  intros [Hin | Hin]; [discriminate |].
  apply in_app_or in Hin; destruct Hin as [Hin | Hin].
  - unfold prelude in Hin; simpl in Hin; intuition discriminate.
  - destruct Hin as [Hin | Hin]; [discriminate |].
    revert Hin; now apply not_in_said.
Qed.

(** Walk along a trace to the event looked for. *)
Ltac find_event :=
  repeat first [ left; reflexivity | right | apply in_or_app; right ].

(** Every run of [probe] closes the socket, except on the connect error
    path and on the not-ready path. *)
Lemma probe_closes_unless o h p addr w :
  In (EvClose (w_socket w)) (trace (probe o h p addr w)) \/
  (exists ret errno,
     w_connect w (w_socket w) addr = (ret, errno) /\
     ret <> 0 /\ errno <> EINPROGRESS) \/
  (exists sret rd wr,
     select_answer w o = (sret, rd, wr) /\ sret <> 0 /\
     (FD_ISSET (w_socket w) rd || FD_ISSET (w_socket w) wr)%bool = false).
Proof.
  destruct (w_connect w (w_socket w) addr) as [ret errno] eqn:Hc.
  destruct (Z.eq_dec ret 0) as [-> | Hret].
  { left. destruct (probe_immediate o h p _ _ _ Hc) as [-> _].
    find_event. }
  destruct (Z.eq_dec errno EINPROGRESS) as [-> | He]; [| right; left; eauto].
  destruct (select_answer w o) as [[sret rd] wr] eqn:Hs.
  destruct (Z.eq_dec sret 0) as [-> | Hsret].
  { left. destruct (probe_timeout o h p _ _ _ _ _ Hc Hret Hs) as [-> _].
    find_event. }
  destruct (FD_ISSET (w_socket w) rd || FD_ISSET (w_socket w) wr)%bool eqn:Hset;
    [| right; right; eauto 6].
  left.
  destruct (w_getsockopt w (w_socket w)) as [[gret error] gerrno] eqn:Hg.
  destruct (Z.eq_dec gret 0) as [-> | Hgret];
    [destruct (Z.eq_dec error 0) as [-> | Herr] |].
  - destruct (probe_open o h p _ _ _ _ _ _ _ Hc Hret Hs Hsret Hset Hg) as [-> _].
    find_event.
  - destruct (probe_closed o h p _ _ _ _ _ _ _ _ Hc Hret Hs Hsret Hset Hg Herr)
      as [-> _].
    find_event.
  - destruct (probe_getsockopt_error o h p _ _ _ _ _ _ _ _ _
                Hc Hret Hs Hsret Hset Hg Hgret) as [-> _].
    find_event.
Qed.

(** C1 (the code departs from the claim).  The claim: on every path that
    reaches socket creation, the connect error path included, the socket is
    closed before the process exits.  The code, run on [tcping 192.0.2.1 80]
    where [socket] returns 3 and [connect] fails with ENETUNREACH: the
    socket is created, the error is printed, [main] returns -1, and no
    [close] is ever called. *)
Theorem C1_connect_error_leaves_socket_open :
  trace (main "tcping" ["192.0.2.1"; "80"]%string w_unreachable) =
    [EvGethostbyname "192.0.2.1";
     EvSocket AF_INET SOCK_STREAM 0;
     EvFcntl 3;
     EvConnect 3 (address testnet 80);
     EvWrite stderr
       (connect_error_text w_unreachable "192.0.2.1" "80" 101)] /\
  result (main "tcping" ["192.0.2.1"; "80"]%string w_unreachable) = Exited (-1) /\
  creates_socket (trace (main "tcping" ["192.0.2.1"; "80"]%string w_unreachable)) /\
  forall fd,
    ~ In (EvClose fd) (trace (main "tcping" ["192.0.2.1"; "80"]%string w_unreachable)).
Proof.
  assert (Hinv : invocation "tcping" ["192.0.2.1"; "80"]%string initial_options
                   "192.0.2.1" "80" 80)
    by (exists 1%nat; repeat split; reflexivity).
  split; [reflexivity |]. split; [reflexivity |]. split.
  - exists AF_INET, SOCK_STREAM, 0. right; left; reflexivity.
  - intros fd.
    apply (connect_error_never_closes _ _ _ _ _ _ w_unreachable testnet (-1) 101 fd Hinv);
      try reflexivity; discriminate.
Qed.

(** *** Fatal errors *)

(** C5.  When [connect] fails with an [errno] other than EINPROGRESS, the
    run consists of the host lookup, [socket], [fcntl], the one [connect]
    and, unless quiet, one error line on stderr; there is no [select] and
    no second [connect], and the exit code is -1. *)
Theorem C5_connect_error_is_fatal prog args o h p v w host ret errno :
  invocation prog args o h p v ->
  w_gethostbyname w h = inl host ->
  w_connect w (w_socket w) (address host v) = (ret, errno) ->
  ret <> 0 -> errno <> EINPROGRESS ->
  trace (main prog args w) =
    EvGethostbyname h :: prelude w (address host v) ++
    said (verbosity o) stderr
      ("error: " ++ h ++ " port " ++ p ++ ": " ++ w_strerror w errno ++ nl)%string /\
  result (main prog args w) = Exited (-1).
Proof.
  intros Hinv Hres Hc Hret He.
  destruct (main_resolved _ _ _ _ _ _ w host Hinv Hres) as [-> ->].
  destruct (probe_connect_error o h p _ _ _ _ Hc Hret He) as [-> ->].
  split; reflexivity.
Qed.

Lemma C5_connect_error_is_fatal_witness :
  trace (main "tcping" ["192.0.2.1"; "80"]%string w_unreachable) =
    EvGethostbyname "192.0.2.1" :: prelude w_unreachable (address testnet 80) ++
    said 1 stderr (connect_error_text w_unreachable "192.0.2.1" "80" 101) /\
  result (main "tcping" ["192.0.2.1"; "80"]%string w_unreachable) = Exited (-1).
Proof.
  apply (C5_connect_error_is_fatal "tcping" ["192.0.2.1"; "80"]%string
           initial_options "192.0.2.1" "80" 80 w_unreachable testnet (-1) 101).
  - exists 1%nat; repeat split; reflexivity.
  - reflexivity.
  - reflexivity.
  - discriminate.
  - discriminate.
Defined.

(** C7.  When the host name does not resolve, the run is the lookup and,
    unless quiet, the resolver's error description on stderr; the exit
    code is -1, which a parent process sees as 255, and no socket is
    created. *)
Theorem C7_resolution_failure prog args o optind h w h_errno :
  (2 <= List.length args)%nat ->
  parse args = (LoopDone o, optind) ->
  nth_error (permuted prog args) optind = Some h ->
  w_gethostbyname w h = inr h_errno ->
  trace (main prog args w) =
    EvGethostbyname h ::
    said (verbosity o) stderr ("error: " ++ w_hstrerror w h_errno ++ nl)%string /\
  result (main prog args w) = Exited (-1) /\
  wait_status (-1) = 255 /\
  ~ creates_socket (trace (main prog args w)).
Proof.
  intros Hargc Hparse Hhost Hres.
  assert (Htr : trace (main prog args w) =
                EvGethostbyname h ::
                said (verbosity o) stderr ("error: " ++ w_hstrerror w h_errno ++ nl)%string).
  { rewrite (main_loop _ _ _ Hargc), Hparse.
    unfold resolve_and_probe; rewrite Hhost, Hres.
    cbn [trace emit]. now rewrite trace_log, app_nil_r. }
  split; [exact Htr |]. split; [| split; [reflexivity |]].
  - rewrite (main_loop _ _ _ Hargc), Hparse.
    unfold resolve_and_probe; rewrite Hhost, Hres.
    cbn [result emit]. now rewrite result_log.
  - rewrite Htr. intros (d & t & pr & [Hin | Hin]); [discriminate |].
    revert Hin; now apply not_in_said.
Qed.

Lemma C7_resolution_failure_witness :
  trace (main "tcping" ["no-such-host.invalid"; "80"]%string w_unknown_host) =
    [EvGethostbyname "no-such-host.invalid";
     EvWrite stderr ("error: Unknown host" ++ nl)%string] /\
  result (main "tcping" ["no-such-host.invalid"; "80"]%string w_unknown_host)
    = Exited (-1) /\
  wait_status (-1) = 255 /\
  ~ creates_socket
      (trace (main "tcping" ["no-such-host.invalid"; "80"]%string w_unknown_host)).
Proof.
  apply (C7_resolution_failure "tcping" ["no-such-host.invalid"; "80"]%string
           initial_options 1%nat "no-such-host.invalid" w_unknown_host 1).
  - simpl; lia.
  - reflexivity.
  - reflexivity.
  - reflexivity.
Defined.

(** C10.  The values returned by [socket] and [fcntl] are not looked at:
    when [socket] fails (-1), nothing is reported and [fcntl] and
    [connect] are called on -1.  When that [connect] fails with EBADF, the
    run ends in the connect error path: the only message is the connect
    error on stderr (unless quiet), and the exit code is -1. *)
Theorem C10_failed_socket_surfaces_as_connect_error prog args o h p v w host :
  invocation prog args o h p v ->
  w_gethostbyname w h = inl host ->
  w_socket w = -1 ->
  (exists rest,
     trace (main prog args w) =
       [EvGethostbyname h; EvSocket AF_INET SOCK_STREAM 0; EvFcntl (-1);
        EvConnect (-1) (address host v)] ++ rest) /\
  (w_connect w (-1) (address host v) = (-1, EBADF) ->
   trace (main prog args w) =
     [EvGethostbyname h; EvSocket AF_INET SOCK_STREAM 0; EvFcntl (-1);
      EvConnect (-1) (address host v)] ++
     said (verbosity o) stderr
       ("error: " ++ h ++ " port " ++ p ++ ": " ++ w_strerror w EBADF ++ nl)%string /\
   result (main prog args w) = Exited (-1)).
Proof.
  intros Hinv Hres Hsock. split.
  - destruct (main_resolved _ _ _ _ _ _ w host Hinv Hres) as [-> _].
    unfold probe. rewrite Hsock. cbn [trace emit]. eexists; reflexivity.
  - intros Hc.
    assert (Hc' : w_connect w (w_socket w) (address host v) = (-1, EBADF))
      by now rewrite Hsock.
    destruct (main_resolved _ _ _ _ _ _ w host Hinv Hres) as [-> ->].
    destruct (probe_connect_error o h p _ _ (-1) EBADF Hc') as [-> ->];
      try discriminate.
    unfold prelude; rewrite Hsock. split; reflexivity.
Qed.

Lemma C10_failed_socket_surfaces_as_connect_error_witness :
  trace (main "tcping" ["localhost"; "80"]%string w_no_socket) =
    [EvGethostbyname "localhost"; EvSocket AF_INET SOCK_STREAM 0; EvFcntl (-1);
     EvConnect (-1) (address loopback 80)] ++
    said 1 stderr (connect_error_text w_no_socket "localhost" "80" EBADF) /\
  result (main "tcping" ["localhost"; "80"]%string w_no_socket) = Exited (-1).
Proof.
  apply (C10_failed_socket_surfaces_as_connect_error "tcping"
           ["localhost"; "80"]%string initial_options "localhost" "80" 80
           w_no_socket loopback).
  - exists 1%nat; repeat split; reflexivity.
  - reflexivity.
  - reflexivity.
  - reflexivity.
Defined.

(** *** Open and closed ports *)

(** C3.  After a pending [connect] (EINPROGRESS), when [select] reports
    the socket readable or writable and [getsockopt] retrieves SO_ERROR:
    a non-zero pending error gives the line [<host> port <port> closed.]
    on stdout (unless quiet) and exit code 1; a zero pending error gives
    [<host> port <port> open.] on stdout (unless quiet) and exit code 0.
    A [connect] that succeeds at once gives the open line and exit code 0
    too. *)
Theorem C3_ready_socket_open_or_closed prog args o h p v w host ret cerrno :
  invocation prog args o h p v ->
  w_gethostbyname w h = inl host ->
  w_connect w (w_socket w) (address host v) = (ret, cerrno) ->
  (ret = 0 ->
     writes (trace (main prog args w)) =
       said (verbosity o) stdout (h ++ " port " ++ p ++ " open." ++ nl)%string /\
     result (main prog args w) = Exited 0) /\
  (forall sret rd wr error errno,
     ret <> 0 -> cerrno = EINPROGRESS ->
     select_answer w o = (sret, rd, wr) -> sret <> 0 ->
     (FD_ISSET (w_socket w) rd || FD_ISSET (w_socket w) wr)%bool = true ->
     w_getsockopt w (w_socket w) = (0, error, errno) ->
     (error <> 0 ->
        writes (trace (main prog args w)) =
          said (verbosity o) stdout (h ++ " port " ++ p ++ " closed." ++ nl)%string /\
        result (main prog args w) = Exited 1) /\
     (error = 0 ->
        writes (trace (main prog args w)) =
          said (verbosity o) stdout (h ++ " port " ++ p ++ " open." ++ nl)%string /\
        result (main prog args w) = Exited 0)).
Proof.
  intros Hinv Hres Hc.
  destruct (main_resolved _ _ _ _ _ _ w host Hinv Hres) as [Htr Hrs].
  rewrite Htr, Hrs. split.
  - intros ->.
    destruct (probe_immediate o h p _ _ _ Hc) as [-> ->].
    split; [| reflexivity].
    unfold writes, said; destruct (truthy (verbosity o)); reflexivity.
  - intros sret rd wr error errno Hret -> Hs Hsret Hset Hg. split.
    + intros Herr.
      destruct (probe_closed o h p _ _ _ _ _ _ _ _ Hc Hret Hs Hsret Hset Hg Herr)
        as [-> ->].
      split; [| reflexivity].
      unfold writes, said; destruct (truthy (verbosity o)); reflexivity.
    + intros ->.
      destruct (probe_open o h p _ _ _ _ _ _ _ Hc Hret Hs Hsret Hset Hg)
        as [-> ->].
      split; [| reflexivity].
      unfold writes, said; destruct (truthy (verbosity o)); reflexivity.
Qed.

Lemma C3_ready_socket_open_or_closed_witness :
  (writes (trace (main "tcping" ["localhost"; "80"]%string w_local)) =
     [EvWrite stdout ("localhost port 80 open." ++ nl)%string] /\
   result (main "tcping" ["localhost"; "80"]%string w_local) = Exited 0) /\
  (writes (trace (main "tcping" ["localhost"; "80"]%string w_refused)) =
     [EvWrite stdout ("localhost port 80 closed." ++ nl)%string] /\
   result (main "tcping" ["localhost"; "80"]%string w_refused) = Exited 1) /\
  (writes (trace (main "tcping" ["localhost"; "80"]%string w_listening)) =
     [EvWrite stdout ("localhost port 80 open." ++ nl)%string] /\
   result (main "tcping" ["localhost"; "80"]%string w_listening) = Exited 0).
Proof.
  assert (Hinv : invocation "tcping" ["localhost"; "80"]%string initial_options
                   "localhost" "80" 80)
    by (exists 1%nat; repeat split; reflexivity).
  split; [| split].
  - apply (proj1 (C3_ready_socket_open_or_closed "tcping" ["localhost"; "80"]%string
             initial_options "localhost" "80" 80 w_local loopback 0 0
             Hinv eq_refl eq_refl)).
    reflexivity.
  - apply (proj2 (C3_ready_socket_open_or_closed "tcping" ["localhost"; "80"]%string
             initial_options "localhost" "80" 80 w_refused loopback (-1) EINPROGRESS
             Hinv eq_refl eq_refl) 1 [] [3] 111 0);
      try reflexivity; discriminate.
  - apply (proj2 (C3_ready_socket_open_or_closed "tcping" ["localhost"; "80"]%string
             initial_options "localhost" "80" 80 w_listening loopback (-1) EINPROGRESS
             Hinv eq_refl eq_refl) 1 [] [3] 0 0);
      try reflexivity; discriminate.
Defined.

(** *** The deadline *)

Lemma to_long_in_long z : in_long (to_long z).
Proof.
  unfold in_long, LONG_MIN, LONG_MAX, to_long, wrap_signed.
  change (64 - 1) with 63.
  pose proof (Z.mod_pos_bound (z + 2 ^ 63) (2 ^ 64)). lia.
Qed.

Lemma to_long_zero z :
  - 2 ^ 64 < z < 2 ^ 64 -> (to_long z = 0 <-> z = 0).
Proof.
  unfold to_long, wrap_signed. change (64 - 1) with 63. intros Hz.
  pose proof (Z.div_mod (z + 2 ^ 63) (2 ^ 64)).
  pose proof (Z.mod_pos_bound (z + 2 ^ 63) (2 ^ 64)).
  split; intros Heq; [lia |].
  subst z. reflexivity.
Qed.

Lemma tv_usec_bound o : - 1000000 < tv_usec (make_timeout o) < 1000000.
Proof.
  unfold make_timeout; simpl tv_usec.
  pose proof (Z.rem_bound_abs (timeout_usec o) 1000000). lia.
Qed.

(** The test of line 117 sees zero exactly when seconds plus
    microseconds is zero. *)
Lemma combined_zero o :
  combined (make_timeout o) = 0 <->
  tv_sec (make_timeout o) + tv_usec (make_timeout o) = 0.
Proof.
  unfold combined. apply to_long_zero.
  pose proof (tv_usec_bound o).
  pose proof (to_long_in_long
                (timeout_sec o + Z.quot (timeout_usec o) 1000000)) as Hs.
  unfold in_long, LONG_MIN, LONG_MAX in Hs.
  change (tv_sec (make_timeout o))
    with (to_long (timeout_sec o + Z.quot (timeout_usec o) 1000000)).
  lia.
Qed.

Lemma append_inj (a x y : string) :
  String.append a x = String.append a y -> x = y.
Proof.
  induction a as [| c a IH]; simpl; intros H; [exact H |].
  apply IH. now inversion H.
Qed.

Lemma timeout_text_not_open h p : timeout_text h p <> open_text h p.
Proof.
  unfold timeout_text, open_text; intros H.
  do 3 apply append_inj in H. discriminate H.
Qed.

Lemma timeout_text_not_closed h p : timeout_text h p <> closed_text h p.
Proof.
  unfold timeout_text, closed_text; intros H.
  do 3 apply append_inj in H. discriminate H.
Qed.

Lemma in_said e v f text : In e (said v f text) -> e = EvWrite f text.
Proof.
  unfold said; destruct (truthy v); simpl; intuition.
Qed.

Ltac not_the_timeout_line :=
  repeat match goal with
    | H : In _ (_ :: _) |- _ => destruct H as [H | H]; [discriminate H |]
    | H : In _ (_ ++ _) |- _ => apply in_app_or in H; destruct H as [H | H]
    | H : In _ (said _ _ _) |- _ => apply in_said in H
    | H : In _ [] |- _ => destruct H
    | H : EvWrite stdout ?a = EvWrite stdout ?b |- _ =>
        assert (a = b) by congruence; clear H
    | H : EvWrite _ _ = EvWrite _ _ |- _ => discriminate H
    | H : timeout_text _ _ = open_text _ _ |- _ =>
        now apply timeout_text_not_open in H
    | H : timeout_text _ _ = closed_text _ _ |- _ =>
        now apply timeout_text_not_closed in H
    end.

(** Once [select] has returned a value other than 0, the run is not a
    timeout. *)
Lemma probe_no_timeout o h p addr w ret sret rd wr :
  w_connect w (w_socket w) addr = (ret, EINPROGRESS) -> ret <> 0 ->
  select_answer w o = (sret, rd, wr) -> sret <> 0 ->
  result (probe o h p addr w) <> Exited 2 /\
  ~ In (EvWrite stdout (timeout_text h p)) (trace (probe o h p addr w)).
Proof.
  intros Hc Hret Hs Hsret.
  destruct (FD_ISSET (w_socket w) rd || FD_ISSET (w_socket w) wr)%bool eqn:Hset.
  - destruct (w_getsockopt w (w_socket w)) as [[gret error] errno] eqn:Hg.
    destruct (Z.eq_dec gret 0) as [-> | Hgret].
    + destruct (Z.eq_dec error 0) as [-> | Herr].
      * destruct (probe_open o h p _ _ _ _ _ _ _ Hc Hret Hs Hsret Hset Hg)
          as [-> ->].
        split; [discriminate |]. unfold prelude. intros Hin.
        not_the_timeout_line.
      * destruct (probe_closed o h p _ _ _ _ _ _ _ _ Hc Hret Hs Hsret Hset Hg Herr)
          as [-> ->].
        split; [discriminate |]. unfold prelude. intros Hin.
        not_the_timeout_line.
    + destruct (probe_getsockopt_error o h p _ _ _ _ _ _ _ _ _
                  Hc Hret Hs Hsret Hset Hg Hgret) as [-> ->].
      split; [discriminate |]. unfold prelude. intros Hin.
      not_the_timeout_line.
  - destruct (probe_not_ready o h p _ _ _ _ _ _ Hc Hret Hs Hsret Hset)
      as [-> ->].
    split; [discriminate |]. unfold prelude. intros Hin.
    not_the_timeout_line.
Qed.

(** C2.  In a run that reaches the readiness wait: when seconds plus
    microseconds (after the carry) is exactly zero, [select] is called
    with a NULL timeout, and, [select] returning 0 only on an expired
    timeout, the run is never a timeout (no exit code 2, no timeout
    line).  When the sum is positive, [select] is given the deadline, and
    if it returns 0 (the deadline elapsed with no readiness event) the
    program closes the socket, prints [<host> port <port> user timeout.]
    on stdout (unless quiet) and exits with code 2. *)
Theorem C2_zero_waits_forever_positive_times_out prog args o h p v w host ret :
  invocation prog args o h p v ->
  w_gethostbyname w h = inl host ->
  w_connect w (w_socket w) (address host v) = (ret, EINPROGRESS) -> ret <> 0 ->
  In (EvSelect (w_socket w + 1) (select_timeout (make_timeout o)))
     (trace (main prog args w)) /\
  (tv_sec (make_timeout o) + tv_usec (make_timeout o) = 0 ->
     select_timeout (make_timeout o) = None /\
     (select_needs_deadline w ->
        result (main prog args w) <> Exited 2 /\
        ~ In (EvWrite stdout (h ++ " port " ++ p ++ " user timeout." ++ nl)%string)
             (trace (main prog args w)))) /\
  (0 < combined (make_timeout o) ->
     select_timeout (make_timeout o) = Some (make_timeout o) /\
     (fst (fst (select_answer w o)) = 0 ->
        trace (main prog args w) =
          EvGethostbyname h :: prelude w (address host v) ++
          [EvSelect (w_socket w + 1) (Some (make_timeout o));
           EvClose (w_socket w)] ++
          said (verbosity o) stdout
            (h ++ " port " ++ p ++ " user timeout." ++ nl)%string /\
        result (main prog args w) = Exited 2)).
Proof.
  intros Hinv Hres Hc Hret.
  destruct (main_resolved _ _ _ _ _ _ w host Hinv Hres) as [Htr Hrs].
  rewrite Htr, Hrs.
  destruct (select_answer w o) as [[sret rd] wr] eqn:Hs.
  split; [| split].
  - right. destruct (Z.eq_dec sret 0) as [-> | Hsret].
    + destruct (probe_timeout o h p _ _ _ _ _ Hc Hret Hs) as [-> _].
      apply in_or_app; right; left; reflexivity.
    + clear Htr Hrs. unfold probe. rewrite Hc, (truthy_true _ Hret), Z.eqb_refl.
      cbn [negb trace emit]. do 3 right. left; reflexivity.
  - intros Hzero. apply combined_zero in Hzero.
    assert (Hnone : select_timeout (make_timeout o) = None)
      by (unfold select_timeout; now rewrite Hzero).
    split; [exact Hnone |]. intros Hposix.
    assert (Hsret : sret <> 0).
    { specialize (Hposix (w_socket w + 1) [w_socket w] [w_socket w]).
      pose proof Hs as Hs'. unfold select_answer in Hs'.
      rewrite Hnone in Hs'. rewrite Hs' in Hposix. exact Hposix. }
    destruct (probe_no_timeout o h p _ _ _ _ _ _ Hc Hret Hs Hsret) as [Hr Hw].
    split; [exact Hr |].
    intros [Hin | Hin]; [discriminate | now apply Hw].
  - intros Hpos.
    assert (Hsome : select_timeout (make_timeout o) = Some (make_timeout o)).
    { unfold select_timeout.
      destruct (Z.gtb_spec (combined (make_timeout o)) 0); [reflexivity | lia]. }
    split; [exact Hsome |]. simpl fst. intros ->.
    destruct (probe_timeout o h p _ _ _ _ _ Hc Hret Hs) as [-> ->].
    unfold select_event. rewrite Hsome. split; reflexivity.
Qed.

Lemma C2_zero_waits_forever_positive_times_out_witness :
  (select_timeout (make_timeout initial_options) = None /\
   result (main "tcping" ["localhost"; "80"]%string w_listening) <> Exited 2 /\
   ~ In (EvWrite stdout ("localhost port 80 user timeout." ++ nl)%string)
        (trace (main "tcping" ["localhost"; "80"]%string w_listening))) /\
  (trace (main "tcping" ["-t"; "1"; "localhost"; "80"]%string w_silent) =
     [EvGethostbyname "localhost"; EvSocket AF_INET SOCK_STREAM 0; EvFcntl 3;
      EvConnect 3 (address loopback 80);
      EvSelect 4 (Some {| tv_sec := 1; tv_usec := 0 |}); EvClose 3;
      EvWrite stdout ("localhost port 80 user timeout." ++ nl)%string] /\
   result (main "tcping" ["-t"; "1"; "localhost"; "80"]%string w_silent) = Exited 2).
Proof.
  split.
  - destruct (C2_zero_waits_forever_positive_times_out
                "tcping" ["localhost"; "80"]%string initial_options
                "localhost" "80" 80 w_listening loopback (-1))
      as (_ & Hzero & _).
    + exists 1%nat; repeat split; reflexivity.
    + reflexivity.
    + reflexivity.
    + discriminate.
    + destruct (Hzero eq_refl) as [Hnone Hrun].
      split; [exact Hnone |]. apply Hrun.
      intros nfds rd wr; simpl; discriminate.
  - destruct (C2_zero_waits_forever_positive_times_out
                "tcping" ["-t"; "1"; "localhost"; "80"]%string
                {| verbosity := 1; timeout_sec := 1; timeout_usec := 0 |}
                "localhost" "80" 80 w_silent loopback (-1))
      as (_ & _ & Hpos).
    + exists 3%nat; repeat split; reflexivity.
    + reflexivity.
    + reflexivity.
    + discriminate.
    + destruct (Hpos eq_refl) as [_ Hrun]. exact (Hrun eq_refl).
Defined.

(** *** Quiet mode *)

Lemma invocation_quiet prog args o h p v :
  invocation prog args o h p v ->
  invocation prog ("-q"%string :: args) (quiet o) h p v.
Proof.
  intros (optind & Hparse & Hhost & Hport & Hstrtol).
  pose proof (parse_optind _ _ _ Hparse) as Hoi.
  destruct optind as [| k]; [lia |].
  exists (S (S k)). split; [now apply parse_quiet |].
  rewrite !permuted_quiet. repeat split; assumption.
Qed.

(** [probe] with and without [verbosity]: the same calls and the same
    exit code; nothing is written without it, one line with it. *)
Lemma probe_quiet o h p addr w :
  result (probe (quiet o) h p addr w) = result (probe o h p addr w) /\
  calls (trace (probe (quiet o) h p addr w)) = calls (trace (probe o h p addr w)) /\
  writes (trace (probe (quiet o) h p addr w)) = [] /\
  (verbosity o <> 0 ->
   exists f text, writes (trace (probe o h p addr w)) = [EvWrite f text]).
Proof.
  assert (Hv : verbosity o <> 0 -> truthy (verbosity o) = true)
    by apply truthy_true.
  unfold probe, established, log.
  change (verbosity (quiet o)) with 0.
  change (make_timeout (quiet o)) with (make_timeout o).
  rewrite truthy_false.
  destruct (w_connect w (w_socket w) addr) as [ret errno].
  destruct (w_select w (w_socket w + 1) (FD_SET (w_socket w) FD_ZERO)
              (FD_SET (w_socket w) FD_ZERO) (select_timeout (make_timeout o)))
    as [[sret rd] wr].
  destruct (w_getsockopt w (w_socket w)) as [[gret error] gerrno].
  destruct (truthy ret); [destruct (negb (errno =? EINPROGRESS)) |];
    [| destruct (sret =? 0);
       [| destruct (FD_ISSET (w_socket w) rd || FD_ISSET (w_socket w) wr)%bool;
          [destruct (truthy gret); [| destruct (truthy error)] |]] |];
    (repeat split; [destruct (truthy (verbosity o)); reflexivity .. |];
     intros Hne; rewrite (Hv Hne); eexists _, _; reflexivity).
Qed.

(** C8.  On every accepted command line and whatever the system answers,
    putting [-q] in front gives the same exit code and the same calls, and
    nothing is written; without [-q] (verbosity set) the run writes exactly
    one line. *)
Theorem C8_quiet_same_exit_code_no_output prog args o h p v w :
  invocation prog args o h p v ->
  result (main prog ("-q"%string :: args) w) = result (main prog args w) /\
  calls (trace (main prog ("-q"%string :: args) w)) = calls (trace (main prog args w)) /\
  writes (trace (main prog ("-q"%string :: args) w)) = [] /\
  (verbosity o <> 0 ->
   exists f text, writes (trace (main prog args w)) = [EvWrite f text]).
Proof.
  intros Hinv.
  rewrite (main_invocation _ _ _ _ _ _ w Hinv).
  rewrite (main_invocation _ _ _ _ _ _ w (invocation_quiet _ _ _ _ _ _ Hinv)).
  destruct (w_gethostbyname w h) as [host | h_errno].
  - destruct (probe_quiet o h p (address host v) w) as (Hr & Hc & Hw & Hone).
    cbn [result trace emit]. unfold calls, writes in *. cbn [filter is_write negb].
    repeat split; auto. now rewrite Hc.
  - unfold log. change (verbosity (quiet o)) with 0. rewrite truthy_false.
    repeat split; try (destruct (truthy (verbosity o)); reflexivity).
    intros Hne. rewrite (truthy_true _ Hne). eexists _, _; reflexivity.
Qed.

Lemma C8_quiet_same_exit_code_no_output_witness :
  result (main "tcping" ["-q"; "localhost"; "80"]%string w_refused) =
    result (main "tcping" ["localhost"; "80"]%string w_refused) /\
  calls (trace (main "tcping" ["-q"; "localhost"; "80"]%string w_refused)) =
    calls (trace (main "tcping" ["localhost"; "80"]%string w_refused)) /\
  writes (trace (main "tcping" ["-q"; "localhost"; "80"]%string w_refused)) = [] /\
  (verbosity initial_options <> 0 ->
   exists f text,
     writes (trace (main "tcping" ["localhost"; "80"]%string w_refused)) =
       [EvWrite f text]).
Proof.
  apply (C8_quiet_same_exit_code_no_output "tcping" ["localhost"; "80"]%string
           initial_options "localhost" "80" 80 w_refused).
  exists 1%nat; repeat split; reflexivity.
Defined.

(** *** The port *)

(** Apart from its first three calls, [probe] never calls [connect] or
    [socket], and every [select] it calls gets the timeout of line 117. *)
Lemma probe_calls o h p addr w :
  exists rest,
    trace (probe o h p addr w) = prelude w addr ++ rest /\
    (forall fd a, ~ In (EvConnect fd a) rest) /\
    (forall nfds tmo,
       In (EvSelect nfds tmo) rest -> tmo = select_timeout (make_timeout o)).
Proof.
  unfold probe, established, log, prelude.
  destruct (w_connect w (w_socket w) addr) as [ret errno].
  destruct (w_select w (w_socket w + 1) (FD_SET (w_socket w) FD_ZERO)
              (FD_SET (w_socket w) FD_ZERO) (select_timeout (make_timeout o)))
    as [[sret rd] wr].
  destruct (w_getsockopt w (w_socket w)) as [[gret error] gerrno].
  destruct (truthy ret); [destruct (negb (errno =? EINPROGRESS)) |];
    [| destruct (sret =? 0);
       [| destruct (FD_ISSET (w_socket w) rd || FD_ISSET (w_socket w) wr)%bool;
          [destruct (truthy gret); [| destruct (truthy error)] |]] |];
    destruct (truthy (verbosity o));
    (eexists; split; [reflexivity |]; split;
     [intros fd a Hin; simpl in Hin; intuition discriminate
     | intros nfds tmo Hin; simpl in Hin; intuition congruence]).
Qed.

(** C9, as amended.  The port is not checked against 1..65535: for every
    port argument from which [strtol] reads a number [z] that fits a
    [long], the one [connect] of the run asks for port [z mod 2^16].  (A
    negative port is a port argument only after ["--"]: elsewhere
    [getopt] takes it for an option.) *)
Theorem C9_port_is_reduced_modulo_65536 prog args o h p v w host z :
  invocation prog args o h p v ->
  strtol_exact p = Some z -> in_long z ->
  w_gethostbyname w h = inl host ->
  exists addr,
    In (EvConnect (w_socket w) addr) (trace (main prog args w)) /\
    ntohs (sin_port addr) = z mod 2 ^ 16 /\
    forall fd a, In (EvConnect fd a) (trace (main prog args w)) -> a = addr.
Proof.
  intros Hinv Hexact Hz Hres.
  assert (Hv : v = z).
  { destruct Hinv as (optind & _ & _ & _ & Hstrtol).
    unfold strtol in Hstrtol. rewrite Hexact in Hstrtol; simpl in Hstrtol.
    rewrite (clamp_long_id _ Hz) in Hstrtol. congruence. }
  subst v.
  destruct (main_resolved _ _ _ _ _ _ w host Hinv Hres) as [-> _].
  destruct (probe_calls o h p (address host z) w) as (rest & -> & Hnc & _).
  exists (address host z). split; [| split].
  - right. apply in_or_app; left. unfold prelude; simpl; auto.
  - apply address_port.
  - intros fd a [Hin | Hin]; [discriminate |].
    apply in_app_or in Hin; destruct Hin as [Hin | Hin].
    + unfold prelude in Hin; simpl in Hin.
      destruct Hin as [Hin | [Hin | [Hin | []]]]; congruence.
    + now apply Hnc in Hin.
Qed.

Lemma C9_port_is_reduced_modulo_65536_witness :
  exists addr,
    In (EvConnect 3 addr)
       (trace (main "tcping" ["--"; "localhost"; "-1"]%string w_local)) /\
    ntohs (sin_port addr) = 65535 /\
    forall fd a,
      In (EvConnect fd a)
         (trace (main "tcping" ["--"; "localhost"; "-1"]%string w_local)) ->
      a = addr.
Proof.
  apply (C9_port_is_reduced_modulo_65536 "tcping" ["--"; "localhost"; "-1"]%string
           initial_options "localhost" "-1" (-1) w_local loopback (-1)).
  - exists 2%nat; repeat split; reflexivity.
  - reflexivity.
  - split; discriminate.
  - reflexivity.
Defined.

(** C9, as stated, fails on a port argument beyond the range of [long]:
    [strtol] returns LONG_MAX for "10000000000000000000" (10^19, which is
    0 modulo 2^16), and the program asks for port 65535. *)
Lemma C9_counterexample :
  strtol_exact "10000000000000000000" = Some (10 ^ 19) /\
  10 ^ 19 mod 2 ^ 16 = 0 /\
  trace (main "tcping" ["localhost"; "10000000000000000000"]%string w_local) =
    [EvGethostbyname "localhost"; EvSocket AF_INET SOCK_STREAM 0; EvFcntl 3;
     EvConnect 3 {| sin_family := 2; sin_port := (255, 255);
                    sin_addr := [127; 0; 0; 1] |};
     EvClose 3;
     EvWrite stdout (open_text "localhost" "10000000000000000000")] /\
  ntohs (255, 255) = 65535.
Proof. repeat split; reflexivity. Qed.

(** The examples of the claim: 65536 is port 0, 65537 is port 1 and -1 is
    port 65535. *)
Example port_65536 host : ntohs (sin_port (address host 65536)) = 0.
Proof. reflexivity. Qed.

Example port_65537 host : ntohs (sin_port (address host 65537)) = 1.
Proof. reflexivity. Qed.

Example port_minus_1 host : ntohs (sin_port (address host (-1))) = 65535.
Proof. reflexivity. Qed.

(** *** The carry from microseconds to seconds *)

Lemma strtol_in_range s z :
  strtol_exact s = Some z -> in_long z -> strtol s = Some z.
Proof.
  intros He Hz. unfold strtol. rewrite He. simpl. now rewrite clamp_long_id.
Qed.

(** The option loop on [-t ts -u us host port]. *)
Lemma parse_t_u prog ts us h p s u :
  strtol ts = Some s -> strtol us = Some u ->
  operand h = true -> operand p = true ->
  parse ["-t"; ts; "-u"; us; h; p]%string =
  (LoopDone {| verbosity := 1; timeout_sec := s; timeout_usec := u |}, 5%nat) /\
  permuted prog ["-t"; ts; "-u"; us; h; p]%string =
  [prog; "-t"; ts; "-u"; us; h; p]%string.
Proof.
  intros Hs Hu Hh Hp.
  rewrite parse_scan, permuted_scan, getopt_scan_t, getopt_scan_u.
  rewrite (getopt_scan_operand _ h), (getopt_scan_operand _ p) by assumption.
  cbn [getopt_scan fst snd List.length app getopt_loop Ascii.eqb Bool.eqb].
  rewrite Hs. cbn [getopt_loop Ascii.eqb Bool.eqb]. rewrite Hu.
  split; reflexivity.
Qed.

Lemma resolve_and_probe_selects o argv optind w nfds tmo :
  In (EvSelect nfds tmo) (trace (resolve_and_probe o argv optind w)) ->
  tmo = select_timeout (make_timeout o).
Proof.
  unfold resolve_and_probe.
  destruct (nth_error argv optind) as [h |]; [| intros []].
  intros [Hin | Hin]; [discriminate |]. revert Hin.
  destruct (w_gethostbyname w h) as [host | h_errno].
  - destruct (nth_error argv (S optind)) as [p |];
      [| simpl; intuition discriminate].
    destruct (strtol p) as [v |]; [| simpl; intuition discriminate].
    match goal with
    | |- context [probe o h p ?a w] =>
        destruct (probe_calls o h p a w) as (rest & -> & _ & Hsel)
    end.
    intros Hin. apply in_app_or in Hin; destruct Hin as [Hin | Hin].
    + unfold prelude in Hin; simpl in Hin; intuition discriminate.
    + now apply Hsel in Hin.
  - rewrite trace_log, app_nil_r. intros Hin.
    apply in_said in Hin; discriminate.
Qed.

(** When [connect] is pending, [select] is called. *)
Lemma main_waits prog args o h p v w host ret :
  invocation prog args o h p v ->
  w_gethostbyname w h = inl host ->
  w_connect w (w_socket w) (address host v) = (ret, EINPROGRESS) -> ret <> 0 ->
  In (select_event w o) (trace (main prog args w)).
Proof.
  intros Hinv Hres Hc Hret.
  destruct (main_resolved _ _ _ _ _ _ w host Hinv Hres) as [-> _].
  right. unfold probe. rewrite Hc, (truthy_true _ Hret), Z.eqb_refl.
  cbn [negb trace emit]. do 3 right. left; reflexivity.
Qed.

(** C6, as amended.  For [-t s -u u] followed by a host and a port that
    do not look like options, with [s], [u] and [s + u / 1000000]
    in the range of [long], [/] and [%] being those of C (which truncate
    towards zero): the deadline computed is [s + u / 1000000] seconds and
    [u % 1000000] microseconds, the same duration as [s] seconds plus [u]
    microseconds; for [u >= 0] these are the floor quotient and the
    non-negative remainder.  Every [select] of the run gets this deadline
    when seconds plus microseconds, added as [long], is positive and no
    deadline otherwise,
    and there is such a [select] when [connect] is pending.  The runs of
    [-t 1 -u 1500000] and of [-t 2 -u 500000] are equal. *)
Theorem C6_microseconds_carry_into_seconds prog ts us h p w s u :
  strtol_exact ts = Some s -> strtol_exact us = Some u ->
  in_long s -> in_long u -> in_long (s + Z.quot u 1000000) ->
  operand h = true -> operand p = true ->
  (forall nfds tmo,
     In (EvSelect nfds tmo)
        (trace (main prog ["-t"; ts; "-u"; us; h; p]%string w)) ->
     tmo = select_timeout
             {| tv_sec := s + Z.quot u 1000000; tv_usec := Z.rem u 1000000 |}) /\
  (forall host v ret,
     w_gethostbyname w h = inl host -> strtol p = Some v ->
     w_connect w (w_socket w) (address host v) = (ret, EINPROGRESS) -> ret <> 0 ->
     In (EvSelect (w_socket w + 1)
           (select_timeout
              {| tv_sec := s + Z.quot u 1000000; tv_usec := Z.rem u 1000000 |}))
        (trace (main prog ["-t"; ts; "-u"; us; h; p]%string w))) /\
  (s + Z.quot u 1000000) * 1000000 + Z.rem u 1000000 = s * 1000000 + u /\
  (0 <= u ->
     Z.quot u 1000000 = u / 1000000 /\ Z.rem u 1000000 = u mod 1000000 /\
     0 <= u mod 1000000 < 1000000) /\
  main prog ["-t"; "1"; "-u"; "1500000"; h; p]%string w =
  main prog ["-t"; "2"; "-u"; "500000"; h; p]%string w.
Proof.
  intros Hts Hus Hs Hu Hsum Hop Hopp.
  destruct (parse_t_u prog ts us h p s u
              (strtol_in_range _ _ Hts Hs) (strtol_in_range _ _ Hus Hu) Hop Hopp)
    as [Hparse Hperm].
  set (o := {| verbosity := 1; timeout_sec := s; timeout_usec := u |}) in *.
  assert (Htv : make_timeout o =
                {| tv_sec := s + Z.quot u 1000000; tv_usec := Z.rem u 1000000 |}).
  { unfold make_timeout, o; simpl. now rewrite to_long_id. }
  assert (Hargc : (2 <= List.length ["-t"; ts; "-u"; us; h; p]%string)%nat)
    by (simpl; lia).
  split; [| split; [| split; [| split]]].
  - intros nfds tmo. rewrite (main_loop _ _ _ Hargc), Hparse, <- Htv.
    apply resolve_and_probe_selects.
  - intros host v ret Hres Hp Hc Hret. rewrite <- Htv.
    apply (main_waits prog _ o h p v w host ret); auto.
    exists 5%nat. rewrite Hperm. repeat split; auto.
  - pose proof (Z.quot_rem' u 1000000). lia.
  - intros Hu0.
    rewrite Z.quot_div_nonneg, Z.rem_mod_nonneg by lia.
    repeat split; try apply Z.mod_pos_bound; lia.
  - assert (Hargc' : forall a b c d : string,
              (2 <= List.length [a; b; c; d; h; p])%nat) by (simpl; lia).
    rewrite !main_loop by apply Hargc'.
    destruct (parse_t_u prog "1" "1500000" h p 1 1500000 eq_refl eq_refl Hop Hopp)
      as [-> ->].
    destruct (parse_t_u prog "2" "500000" h p 2 500000 eq_refl eq_refl Hop Hopp)
      as [-> ->].
    reflexivity.
Qed.

Lemma C6_microseconds_carry_into_seconds_witness :
  In (EvSelect 4 (Some {| tv_sec := 2; tv_usec := 500000 |}))
     (trace (main "tcping" ["-t"; "1"; "-u"; "1500000"; "localhost"; "80"]%string
               w_silent)) /\
  main "tcping" ["-t"; "1"; "-u"; "1500000"; "localhost"; "80"]%string w_silent =
  main "tcping" ["-t"; "2"; "-u"; "500000"; "localhost"; "80"]%string w_silent.
Proof.
  destruct (C6_microseconds_carry_into_seconds "tcping" "1" "1500000"
              "localhost" "80" w_silent 1 1500000)
    as (_ & Hcalled & _ & _ & Hsame).
  - reflexivity.
  - reflexivity.
  - split; discriminate.
  - split; discriminate.
  - split; discriminate.
  - reflexivity.
  - reflexivity.
  - split; [| exact Hsame].
    apply (Hcalled loopback 80 (-1)); try reflexivity; discriminate.
Defined.

(** C6, as stated for all integers, fails beyond the range of [long]:
    [strtol] returns LONG_MAX for "10000000000000000000" (10^19), and the
    deadline is 9223372036854 s 775807 us instead of 10^13 s 0 us. *)
Lemma C6_counterexample :
  strtol_exact "0" = Some 0 /\
  strtol_exact "10000000000000000000" = Some (10 ^ 19) /\
  In (EvSelect 4 (Some {| tv_sec := 9223372036854; tv_usec := 775807 |}))
     (trace (main "tcping"
               ["-t"; "0"; "-u"; "10000000000000000000"; "localhost"; "80"]%string
               w_silent)) /\
  {| tv_sec := 9223372036854; tv_usec := 775807 |} <>
  {| tv_sec := 0 + 10 ^ 19 / 1000000; tv_usec := 10 ^ 19 mod 1000000 |}.
Proof.
  split; [reflexivity |]. split; [reflexivity |]. split.
  - vm_compute. do 4 right. left; reflexivity.
  - discriminate.
Qed.

(** With a negative number of microseconds the test of line 117 adds
    seconds to microseconds: [-t 1 -u -1] gives 1 + (-1) = 0 and [select]
    gets no deadline at all. *)
Example negative_microseconds_no_deadline :
  In (EvSelect 4 None)
     (trace (main "tcping" ["-t"; "1"; "-u"; "-1"; "localhost"; "80"]%string
               w_listening)).
Proof. vm_compute. do 4 right. left; reflexivity. Qed.

(** *** Usage errors *)

(** An option argument of [-t] or [-u] that [strtol] cannot read makes
    the loop call [usage], at that option or at an earlier one. *)
Lemma getopt_loop_bad_number rets :
  forall o c optarg,
    In (OptArg c optarg) rets -> c = "t"%char \/ c = "u"%char ->
    strtol optarg = None ->
    exists diag,
      getopt_loop rets o = LoopUsage diag /\ (diag = [] \/ diag = [EvGetoptDiag]).
Proof.
  induction rets as [| r rets IH]; intros o c optarg Hin Hc Hbad; [destruct Hin |].
  destruct Hin as [-> | Hin].
  - simpl. destruct Hc as [-> | ->]; simpl; rewrite Hbad; eauto.
  - destruct r as [c' | c' optarg' |]; simpl.
    + destruct (Ascii.eqb c' "q"); eauto.
    + destruct (Ascii.eqb c' "t"); [destruct (strtol optarg'); eauto |].
      destruct (Ascii.eqb c' "u"); [destruct (strtol optarg'); eauto |]. eauto.
    + eauto.
Qed.

(** C4, as amended.  With fewer than two arguments after the program
    name, or with a [-t] or [-u] value that does not start with a number,
    the program writes the usage message on stderr and exits with -1 (255
    for the parent) without a lookup, a socket or a connect.  When the
    options are accepted and the host is there but the port is missing or
    does not start with a number, the host is looked up first: if it
    resolves, the usage message follows; if not, the resolver's error does
    (unless quiet).  In all these cases the exit code is -1 and no
    socket is created. *)
Theorem C4_usage_errors prog args w :
  ((List.length args < 2)%nat ->
     trace (main prog args w) = [EvWrite stderr (usage_text prog)] /\
     result (main prog args w) = Exited (-1)) /\
  (forall c optarg,
     (2 <= List.length args)%nat ->
     In (OptArg c optarg) (fst (getopt_seq "qt:u:" args 1)) ->
     c = "t"%char \/ c = "u"%char ->
     strtol optarg = None ->
     exists diag,
       (diag = [] \/ diag = [EvGetoptDiag]) /\
       trace (main prog args w) = diag ++ [EvWrite stderr (usage_text prog)] /\
       result (main prog args w) = Exited (-1)) /\
  (forall o optind h,
     (2 <= List.length args)%nat ->
     parse args = (LoopDone o, optind) ->
     nth_error (permuted prog args) optind = Some h ->
     match nth_error (permuted prog args) (S optind) with
     | None => True
     | Some p => strtol p = None
     end ->
     match w_gethostbyname w h with
     | inl _ =>
         trace (main prog args w) =
           [EvGethostbyname h; EvWrite stderr (usage_text prog)]
     | inr h_errno =>
         trace (main prog args w) =
           EvGethostbyname h :: said (verbosity o) stderr (resolver_text w h_errno)
     end /\
     result (main prog args w) = Exited (-1)) /\
  wait_status (-1) = 255.
Proof.
  split; [| split; [| split; [| reflexivity]]].
  - intros Hlt. now rewrite main_short.
  - intros c optarg Hargc Hin Hc Hbad.
    rewrite (main_loop _ _ _ Hargc). unfold parse.
    destruct (getopt_seq "qt:u:" args 1) as [rets optind]; simpl fst in Hin.
    destruct (getopt_loop_bad_number rets initial_options c optarg Hin Hc Hbad)
      as (diag & -> & Hdiag).
    exists diag. repeat split; auto.
  - intros o optind h Hargc Hparse Hhost Hport.
    rewrite (main_loop _ _ _ Hargc), Hparse.
    unfold resolve_and_probe. rewrite permuted_head, Hhost.
    destruct (w_gethostbyname w h) as [host | h_errno].
    + destruct (nth_error (permuted prog args) (S optind)) as [p |];
        [rewrite Hport |]; split; reflexivity.
    + cbn [trace result emit]. rewrite trace_log, result_log, app_nil_r.
      split; reflexivity.
Qed.

Lemma C4_usage_errors_witness :
  (trace (main "tcping" ["localhost"]%string w_listening) =
     [EvWrite stderr (usage_text "tcping")] /\
   result (main "tcping" ["localhost"]%string w_listening) = Exited (-1)) /\
  (exists diag,
     (diag = [] \/ diag = [EvGetoptDiag]) /\
     trace (main "tcping" ["-t"; "soon"; "localhost"; "80"]%string w_listening) =
       diag ++ [EvWrite stderr (usage_text "tcping")] /\
     result (main "tcping" ["-t"; "soon"; "localhost"; "80"]%string w_listening) =
       Exited (-1)) /\
  (trace (main "tcping" ["localhost"; "http"]%string w_listening) =
     [EvGethostbyname "localhost"; EvWrite stderr (usage_text "tcping")] /\
   result (main "tcping" ["localhost"; "http"]%string w_listening) = Exited (-1)) /\
  (trace (main "tcping" ["-q"; "localhost"]%string w_listening) =
     [EvGethostbyname "localhost"; EvWrite stderr (usage_text "tcping")] /\
   result (main "tcping" ["-q"; "localhost"]%string w_listening) = Exited (-1)).
Proof.
  split; [| split; [| split]].
  - apply (proj1 (C4_usage_errors "tcping" ["localhost"]%string w_listening)).
    simpl; lia.
  - apply (proj1 (proj2 (C4_usage_errors "tcping"
                           ["-t"; "soon"; "localhost"; "80"]%string w_listening))
             "t"%char "soon"%string).
    + simpl; lia.
    + left; reflexivity.
    + left; reflexivity.
    + reflexivity.
  - apply (proj1 (proj2 (proj2 (C4_usage_errors "tcping"
                                  ["localhost"; "http"]%string w_listening)))
             initial_options 1%nat "localhost"%string).
    + simpl; lia.
    + reflexivity.
    + reflexivity.
    + reflexivity.
  - apply (proj1 (proj2 (proj2 (C4_usage_errors "tcping"
                                  ["-q"; "localhost"]%string w_listening)))
             (quiet initial_options) 2%nat "localhost"%string).
    + simpl; lia.
    + reflexivity.
    + reflexivity.
    + exact I.
Defined.

(** C4, as stated, fails on a port that is not a number: [tcping
    localhost http] looks the host up before it prints the usage
    message. *)
Lemma C4_counterexample :
  strtol "http" = None /\
  trace (main "tcping" ["localhost"; "http"]%string w_listening) =
    [EvGethostbyname "localhost"; EvWrite stderr (usage_text "tcping")] /\
  resolves_name (trace (main "tcping" ["localhost"; "http"]%string w_listening)).
Proof.
  split; [reflexivity |]. split; [reflexivity |].
  exists "localhost"%string. left; reflexivity.
Qed.

(** With the same command line and a host that does not resolve, the
    resolver's error is printed and the usage message is not. *)
Example bad_port_unknown_host :
  trace (main "tcping" ["nowhere.invalid"; "http"]%string w_unknown_host) =
    [EvGethostbyname "nowhere.invalid";
     EvWrite stderr (resolver_text w_unknown_host 1)].
Proof. reflexivity. Qed.

(** Options only, no host: [argv[optind]] is the NULL that ends [argv]. *)
Example no_host_at_all :
  main "tcping" ["-q"; "-q"]%string w_listening = undefined.
Proof. reflexivity. Qed.

End TcpingSpec.

(* ------------------------------------------------------------------ *)
(** ** Further properties of [main] *)

Module TcpingExtra.
Import C Libc Sys Tcping Scenario TcpingSpec.

(** *** Every run follows one of the paths *)

Lemma probe_has_path o h p addr w :
  exists tail code,
    probe_path o h p addr w tail code /\
    trace (probe o h p addr w) = prelude w addr ++ tail /\
    result (probe o h p addr w) = Exited code.
Proof.
  destruct (w_connect w (w_socket w) addr) as [ret errno] eqn:Hc.
  destruct (Z.eq_dec ret 0) as [-> | Hret].
  { destruct (probe_immediate o h p _ _ _ Hc) as [Ht Hr].
    eexists _, _; split; [eapply PathImmediate; eauto | auto]. }
  destruct (Z.eq_dec errno EINPROGRESS) as [-> | He].
  2:{ destruct (probe_connect_error o h p _ _ _ _ Hc Hret He) as [Ht Hr].
      eexists _, _; split; [eapply PathConnectError; eauto | auto]. }
  destruct (select_answer w o) as [[sret rd] wr] eqn:Hs.
  destruct (Z.eq_dec sret 0) as [-> | Hsret].
  { destruct (probe_timeout o h p _ _ _ _ _ Hc Hret Hs) as [Ht Hr].
    eexists _, _; split; [eapply PathTimeout; eauto | auto]. }
  destruct (FD_ISSET (w_socket w) rd || FD_ISSET (w_socket w) wr)%bool eqn:Hset.
  2:{ destruct (probe_not_ready o h p _ _ _ _ _ _ Hc Hret Hs Hsret Hset)
        as [Ht Hr].
      eexists _, _; split; [eapply PathNotReady; eauto | auto]. }
  destruct (w_getsockopt w (w_socket w)) as [[gret error] gerrno] eqn:Hg.
  destruct (Z.eq_dec gret 0) as [-> | Hgret];
    [destruct (Z.eq_dec error 0) as [-> | Herr] |].
  - destruct (probe_open o h p _ _ _ _ _ _ _ Hc Hret Hs Hsret Hset Hg)
      as [Ht Hr].
    eexists _, _; split; [eapply PathOpen; eauto | auto].
  - destruct (probe_closed o h p _ _ _ _ _ _ _ _ Hc Hret Hs Hsret Hset Hg Herr)
      as [Ht Hr].
    eexists _, _; split; [eapply PathClosed; eauto | auto].
  - destruct (probe_getsockopt_error o h p _ _ _ _ _ _ _ _ _
                Hc Hret Hs Hsret Hset Hg Hgret) as [Ht Hr].
    eexists _, _; split; [eapply PathGetsockoptError; eauto | auto].
Qed.

Lemma getopt_loop_diag rets :
  forall o diag,
    getopt_loop rets o = LoopUsage diag -> diag = [] \/ diag = [EvGetoptDiag].
Proof.
  induction rets as [| r rets IH]; intros o diag H; simpl in H; [discriminate |].
  destruct r as [c | c optarg |].
  - destruct (Ascii.eqb c "q"); [eauto | inversion H; auto].
  - destruct (Ascii.eqb c "t");
      [destruct (strtol optarg); [eauto | inversion H; auto] |].
    destruct (Ascii.eqb c "u");
      [destruct (strtol optarg); [eauto | inversion H; auto] |].
    inversion H; auto.
  - inversion H; auto.
Qed.

Lemma parse_diag args diag optind :
  parse args = (LoopUsage diag, optind) -> diag = [] \/ diag = [EvGetoptDiag].
Proof.
  unfold parse. destruct (getopt_seq "qt:u:" args 1) as [rets oi].
  intros H; inversion H as [[Hl Ho]]. eapply getopt_loop_diag; eauto.
Qed.

(** The run of [main] is one of the six paths. *)
Lemma main_has_path prog args w :
  main_path prog args w (trace (main prog args w)) (result (main prog args w)).
Proof.
  destruct (le_lt_dec 2 (List.length args)) as [Hargc | Hshort].
  2:{ rewrite (main_short _ _ _ Hshort). now apply MainShort. }
  rewrite (main_loop _ _ _ Hargc).
  destruct (parse args) as [[o | diag] optind] eqn:Hparse.
  2:{ apply (MainBadOption _ _ _ diag optind); auto.
      eapply parse_diag; eauto. }
  unfold resolve_and_probe. rewrite permuted_head.
  destruct (nth_error (permuted prog args) optind) as [h |] eqn:Hhost.
  2:{ now apply (MainNoHost _ _ _ o optind). }
  destruct (w_gethostbyname w h) as [host | h_errno] eqn:Hres.
  2:{ cbn [trace result emit]. rewrite trace_log, result_log, app_nil_r.
      now apply (MainUnresolved _ _ _ o optind). }
  destruct (nth_error (permuted prog args) (S optind)) as [p |] eqn:Hport.
  2:{ apply (MainNoPort _ _ _ o optind h host); auto.
      unfold bad_port; now rewrite Hport. }
  destruct (strtol p) as [v |] eqn:Hv.
  2:{ apply (MainNoPort _ _ _ o optind h host); auto.
      unfold bad_port; now rewrite Hport. }
  change (probe o h p _ w) with (probe o h p (address host v) w).
  destruct (probe_has_path o h p (address host v) w)
    as (tail & code & Hpath & Htr & Hr).
  cbn [trace result emit]. rewrite Htr, Hr.
  apply (MainProbe _ _ _ o h p v host); auto.
  exists optind; auto.
Qed.

(** Case analysis on the path of [main prog args w]: the trace and the
    result become those of the path. *)
Ltac main_paths prog args w :=
  let H := fresh "Hpath" in
  pose proof (main_has_path prog args w) as H; revert H;
  generalize (trace (main prog args w)) (result (main prog args w));
  intros ? ? H; destruct H;
  [ | | | | |
    match goal with
    | Hp : probe_path _ _ _ _ _ _ _ |- _ => destruct Hp
    end ].

(** Take a membership in an explicit trace apart. *)
Ltac split_in :=
  unfold prelude, select_event in *;
  repeat match goal with
    | H : _ \/ _ |- _ => destruct H
    | H : ?d = [] |- _ => is_var d; subst d
    | H : ?d = [_] |- _ => is_var d; subst d
    | H : False |- _ => destruct H
    | H : In _ [] |- _ => destruct H
    | H : In _ (_ :: _) |- _ => destruct H as [H | H]
    | H : In _ (_ ++ _) |- _ => apply in_app_or in H; destruct H as [H | H]
    | H : In _ (said _ _ _) |- _ => apply in_said in H
    end.

(** *** Exit codes *)

(** X1.  A run either hands NULL to [gethostbyname] or ends with one of
    the four exit codes -1, 0, 1 and 2 of the header comment. *)
Theorem exit_codes prog args w :
  In (result (main prog args w))
     [Undefined; Exited (-1); Exited 0; Exited 1; Exited 2].
Proof.
  main_paths prog args w; simpl; auto 6.
Qed.

(** X2.  The verdicts rest on what the system answered.  Exit code 0:
    [connect] returned 0, or it was pending and [getsockopt] stored a
    zero pending error.  Exit code 1: [getsockopt] stored a non-zero
    pending error.  Exit code 2: [select] returned 0. *)
Theorem verdicts_rest_on_answers prog args w :
  (result (main prog args w) = Exited 0 ->
   exists o h p v host,
     invocation prog args o h p v /\ w_gethostbyname w h = inl host /\
     (fst (w_connect w (w_socket w) (address host v)) = 0 \/
      snd (w_connect w (w_socket w) (address host v)) = EINPROGRESS /\
      exists errno, w_getsockopt w (w_socket w) = (0, 0, errno))) /\
  (result (main prog args w) = Exited 1 ->
   exists o h p v host,
     invocation prog args o h p v /\ w_gethostbyname w h = inl host /\
     snd (w_connect w (w_socket w) (address host v)) = EINPROGRESS /\
     exists error errno,
       w_getsockopt w (w_socket w) = (0, error, errno) /\ error <> 0) /\
  (result (main prog args w) = Exited 2 ->
   exists o h p v host,
     invocation prog args o h p v /\ w_gethostbyname w h = inl host /\
     snd (w_connect w (w_socket w) (address host v)) = EINPROGRESS /\
     fst (fst (select_answer w o)) = 0).
Proof.
  main_paths prog args w; (split; [| split]); intros Hr;
    try discriminate Hr;
    exists o, h, p, v, host; (split; [assumption |]); (split; [assumption |]);
    repeat match goal with
      | H : w_connect _ _ _ = _ |- _ => rewrite H
      | H : select_answer _ _ = _ |- _ => rewrite H
      end; simpl; eauto 6.
Qed.

Lemma verdicts_rest_on_answers_witness :
  (exists o h p v host,
     invocation "tcping" ["localhost"; "80"]%string o h p v /\
     w_gethostbyname w_listening h = inl host /\
     (fst (w_connect w_listening (w_socket w_listening) (address host v)) = 0 \/
      snd (w_connect w_listening (w_socket w_listening) (address host v))
        = EINPROGRESS /\
      exists errno,
        w_getsockopt w_listening (w_socket w_listening) = (0, 0, errno))) /\
  (exists o h p v host,
     invocation "tcping" ["localhost"; "80"]%string o h p v /\
     w_gethostbyname w_refused h = inl host /\
     snd (w_connect w_refused (w_socket w_refused) (address host v))
       = EINPROGRESS /\
     exists error errno,
       w_getsockopt w_refused (w_socket w_refused) = (0, error, errno) /\
       error <> 0) /\
  (exists o h p v host,
     invocation "tcping" ["-t"; "1"; "localhost"; "80"]%string o h p v /\
     w_gethostbyname w_silent h = inl host /\
     snd (w_connect w_silent (w_socket w_silent) (address host v))
       = EINPROGRESS /\
     fst (fst (select_answer w_silent o)) = 0).
Proof.
  split; [| split].
  - apply (proj1 (verdicts_rest_on_answers "tcping"
                    ["localhost"; "80"]%string w_listening)).
    reflexivity.
  - apply (proj1 (proj2 (verdicts_rest_on_answers "tcping"
                           ["localhost"; "80"]%string w_refused))).
    reflexivity.
  - apply (proj2 (proj2 (verdicts_rest_on_answers "tcping"
                           ["-t"; "1"; "localhost"; "80"]%string w_silent))).
    reflexivity.
Defined.

(** X3.  What is written agrees with the exit code: a line on stderr goes
    with exit code -1; a line on stdout is the open line with exit code 0,
    the closed line with exit code 1 or the timeout line with exit
    code 2. *)
Theorem message_agrees_with_exit_code prog args w f text :
  In (EvWrite f text) (trace (main prog args w)) ->
  (f = stderr /\ result (main prog args w) = Exited (-1)) \/
  (f = stdout /\
   exists h p,
     (text = open_text h p /\ result (main prog args w) = Exited 0) \/
     (text = closed_text h p /\ result (main prog args w) = Exited 1) \/
     (text = timeout_text h p /\ result (main prog args w) = Exited 2)).
Proof.
  main_paths prog args w; intros Hin; split_in;
    try discriminate;
    match goal with
    | H : EvWrite _ _ = EvWrite _ _ |- _ => inversion H; subst
    end;
    solve [ left; split; reflexivity
          | right; split; [reflexivity |]; eexists _, _; eauto ].
Qed.

Lemma message_agrees_with_exit_code_witness :
  (stdout = stderr /\
   result (main "tcping" ["localhost"; "80"]%string w_refused) = Exited (-1)) \/
  (stdout = stdout /\
   exists h p,
     (closed_text "localhost" "80" = open_text h p /\
      result (main "tcping" ["localhost"; "80"]%string w_refused) = Exited 0) \/
     (closed_text "localhost" "80" = closed_text h p /\
      result (main "tcping" ["localhost"; "80"]%string w_refused) = Exited 1) \/
     (closed_text "localhost" "80" = timeout_text h p /\
      result (main "tcping" ["localhost"; "80"]%string w_refused) = Exited 2)).
Proof.
  apply (message_agrees_with_exit_code "tcping" ["localhost"; "80"]%string
           w_refused stdout (closed_text "localhost" "80")).
  simpl. do 6 right. left. reflexivity.
Defined.

(** *** The calls of a run *)

(** X4.  Nothing is tried twice: in every run each kind of event, be it a
    call of [gethostbyname], [socket], [fcntl], [connect], [select],
    [getsockopt] or [close] or a line written, occurs at most once. *)
Theorem nothing_happens_twice prog args w k :
  (occurrences k (trace (main prog args w)) <= 1)%nat.
Proof.
  main_paths prog args w; split_in;
    unfold occurrences, prelude, select_event, said;
    repeat match goal with
      | |- context [truthy ?v] => destruct (truthy v)
      end;
    destruct k; simpl; lia.
Qed.

(** X5.  The socket is not used after [close]: whatever follows the
    [close] of a run is a line written, never a call. *)
Theorem no_call_after_close prog args w :
  calls (after_close (trace (main prog args w))) = [].
Proof.
  main_paths prog args w; split_in;
    unfold prelude, select_event, said;
    repeat match goal with
      | |- context [truthy ?v] => destruct (truthy v)
      end;
    reflexivity.
Qed.

(** X6.  Every call that takes a descriptor is made on the value that
    [socket] returned ([select] with that value plus one as [nfds]). *)
Theorem one_descriptor prog args w e fd :
  In e (trace (main prog args w)) -> fd_of e = Some fd -> fd = w_socket w.
Proof.
  main_paths prog args w; intros Hin Hfd; split_in; subst;
    simpl in Hfd; try discriminate Hfd;
    inversion Hfd; lia.
Qed.

Lemma one_descriptor_witness : 3 = w_socket w_refused.
Proof.
  apply (one_descriptor "tcping" ["localhost"; "80"]%string w_refused
           (EvSelect 4 None) 3).
  - simpl. do 4 right. left. reflexivity.
  - reflexivity.
Defined.

(** X7.  A socket is created exactly when the command line is accepted
    (options, host and a numeric port) and the host resolves. *)
Theorem socket_created_iff prog args w :
  creates_socket (trace (main prog args w)) <->
  exists o h p v host,
    invocation prog args o h p v /\ w_gethostbyname w h = inl host.
Proof.
  split.
  - main_paths prog args w; intros (d & t & pr & Hin); split_in;
      try discriminate; eauto 10.
  - intros (o & h & p & v & host & Hinv & Hres).
    destruct (main_resolved _ _ _ _ _ _ w host Hinv Hres) as [-> _].
    exists AF_INET, SOCK_STREAM, 0. right. unfold probe. left. reflexivity.
Qed.

Lemma socket_created_iff_witness :
  creates_socket (trace (main "tcping" ["localhost"; "80"]%string w_refused)).
Proof.
  apply (proj2 (socket_created_iff "tcping" ["localhost"; "80"]%string w_refused)).
  exists initial_options, "localhost"%string, "80"%string, 80, loopback.
  split; [| reflexivity].
  exists 1%nat; repeat split; reflexivity.
Defined.

(** X8.  The [struct timeval] handed to [select] is never malformed on the
    high side and never useless: whenever [select] is given a deadline,
    its [tv_usec] is below 1000000 in absolute value, its [tv_sec] fits a
    [long], and seconds plus microseconds is positive. *)
Theorem select_deadline_bounds prog args w nfds tv :
  In (EvSelect nfds (Some tv)) (trace (main prog args w)) ->
  - 1000000 < tv_usec tv < 1000000 /\ in_long (tv_sec tv) /\ 0 < combined tv.
Proof.
  main_paths prog args w; intros Hin; split_in; try discriminate;
    match goal with
    | H : EvSelect _ _ = EvSelect _ _ |- _ => inversion H as [[Hn Htv]]
    end;
    unfold select_timeout in Htv;
    destruct (Z.gtb_spec (combined (make_timeout o)) 0); try discriminate;
    inversion Htv; subst tv;
    (split; [apply tv_usec_bound | split; [apply to_long_in_long | assumption]]).
Qed.

Lemma select_deadline_bounds_witness :
  - 1000000 < 500000 < 1000000 /\ in_long 2 /\
  0 < combined {| tv_sec := 2; tv_usec := 500000 |}.
Proof.
  apply (select_deadline_bounds "tcping"
           ["-t"; "1"; "-u"; "1500000"; "localhost"; "80"]%string w_silent 4
           {| tv_sec := 2; tv_usec := 500000 |}).
  simpl. do 4 right. left. reflexivity.
Defined.

(** *** The remaining paths of [probe] *)

(** X9.  When [getsockopt] fails, the program writes
    [error: <host> port <port>: getsockopt: <reason>] on stderr (unless
    quiet), closes the socket and exits with -1. *)
Theorem getsockopt_failure prog args o h p v w host ret sret rd wr gret error errno :
  invocation prog args o h p v ->
  w_gethostbyname w h = inl host ->
  w_connect w (w_socket w) (address host v) = (ret, EINPROGRESS) -> ret <> 0 ->
  select_answer w o = (sret, rd, wr) -> sret <> 0 ->
  (FD_ISSET (w_socket w) rd || FD_ISSET (w_socket w) wr)%bool = true ->
  w_getsockopt w (w_socket w) = (gret, error, errno) -> gret <> 0 ->
  trace (main prog args w) =
    EvGethostbyname h :: prelude w (address host v) ++
    [select_event w o; EvGetsockopt (w_socket w)] ++
    said (verbosity o) stderr
      ("error: " ++ h ++ " port " ++ p ++ ": getsockopt: " ++
       w_strerror w errno ++ nl)%string ++
    [EvClose (w_socket w)] /\
  result (main prog args w) = Exited (-1).
Proof.
  intros Hinv Hres Hc Hret Hs Hsret Hset Hg Hgret.
  destruct (main_resolved _ _ _ _ _ _ w host Hinv Hres) as [-> ->].
  destruct (probe_getsockopt_error o h p _ _ _ _ _ _ _ _ _
              Hc Hret Hs Hsret Hset Hg Hgret) as [-> ->].
  split; reflexivity.
Qed.

Lemma getsockopt_failure_witness :
  trace (main "tcping" ["localhost"; "80"]%string w_getsockopt_fails) =
    [EvGethostbyname "localhost"; EvSocket AF_INET SOCK_STREAM 0; EvFcntl 3;
     EvConnect 3 (address loopback 80); EvSelect 4 None; EvGetsockopt 3;
     EvWrite stderr
       ("error: localhost port 80: getsockopt: Bad file descriptor" ++ nl)%string;
     EvClose 3] /\
  result (main "tcping" ["localhost"; "80"]%string w_getsockopt_fails) = Exited (-1).
Proof.
  apply (getsockopt_failure "tcping" ["localhost"; "80"]%string initial_options
           "localhost" "80" 80 w_getsockopt_fails loopback (-1) 1 [] [3] (-1) 0 9).
  - exists 1%nat; repeat split; reflexivity.
  - reflexivity.
  - reflexivity.
  - discriminate.
  - reflexivity.
  - discriminate.
  - reflexivity.
  - reflexivity.
  - discriminate.
Defined.

(** X10.  When [select] returns a value other than 0 and the socket is in
    neither set, the program writes [error: select: sockfd not set] on
    stderr (unless quiet) and exits with -1; [getsockopt] is not
    called. *)
Theorem socket_not_set prog args o h p v w host ret sret rd wr :
  invocation prog args o h p v ->
  w_gethostbyname w h = inl host ->
  w_connect w (w_socket w) (address host v) = (ret, EINPROGRESS) -> ret <> 0 ->
  select_answer w o = (sret, rd, wr) -> sret <> 0 ->
  (FD_ISSET (w_socket w) rd || FD_ISSET (w_socket w) wr)%bool = false ->
  trace (main prog args w) =
    EvGethostbyname h :: prelude w (address host v) ++ [select_event w o] ++
    said (verbosity o) stderr ("error: select: sockfd not set" ++ nl)%string /\
  result (main prog args w) = Exited (-1).
Proof.
  intros Hinv Hres Hc Hret Hs Hsret Hset.
  destruct (main_resolved _ _ _ _ _ _ w host Hinv Hres) as [-> ->].
  destruct (probe_not_ready o h p _ _ _ _ _ _ Hc Hret Hs Hsret Hset) as [-> ->].
  split; reflexivity.
Qed.

Lemma socket_not_set_witness :
  trace (main "tcping" ["localhost"; "80"]%string w_silent) =
    [EvGethostbyname "localhost"; EvSocket AF_INET SOCK_STREAM 0; EvFcntl 3;
     EvConnect 3 (address loopback 80); EvSelect 4 None;
     EvWrite stderr ("error: select: sockfd not set" ++ nl)%string] /\
  result (main "tcping" ["localhost"; "80"]%string w_silent) = Exited (-1).
Proof.
  apply (socket_not_set "tcping" ["localhost"; "80"]%string initial_options
           "localhost" "80" 80 w_silent loopback (-1) 1 [] []).
  - exists 1%nat; repeat split; reflexivity.
  - reflexivity.
  - reflexivity.
  - discriminate.
  - reflexivity.
  - discriminate.
  - reflexivity.
Defined.

(** X11.  A failure of [select] is not told apart from readiness: only
    the return value 0 is tested, so when [select] returns another value
    (-1 on failure) and leaves the two sets as it got them, the socket is
    still found set, [getsockopt] is called, and the verdict is the one of
    the pending error: open (0) when it is zero, closed (1) otherwise. *)
Theorem select_failure_counts_as_ready prog args o h p v w host ret sret error errno :
  invocation prog args o h p v ->
  w_gethostbyname w h = inl host ->
  w_connect w (w_socket w) (address host v) = (ret, EINPROGRESS) -> ret <> 0 ->
  select_answer w o = (sret, [w_socket w], [w_socket w]) -> sret <> 0 ->
  w_getsockopt w (w_socket w) = (0, error, errno) ->
  In (EvGetsockopt (w_socket w)) (trace (main prog args w)) /\
  writes (trace (main prog args w)) =
    said (verbosity o) stdout
      (if error =? 0 then open_text h p else closed_text h p) /\
  result (main prog args w) = Exited (if error =? 0 then 0 else 1).
Proof.
  intros Hinv Hres Hc Hret Hs Hsret Hg.
  assert (Hset : (FD_ISSET (w_socket w) [w_socket w] ||
                  FD_ISSET (w_socket w) [w_socket w])%bool = true)
    by (unfold FD_ISSET; simpl; now rewrite Z.eqb_refl).
  destruct (main_resolved _ _ _ _ _ _ w host Hinv Hres) as [-> ->].
  destruct (Z.eqb_spec error 0) as [-> | Herr].
  - destruct (probe_open o h p _ _ _ _ _ _ _ Hc Hret Hs Hsret Hset Hg)
      as [-> ->].
    split; [find_event |]. split; [| reflexivity].
    unfold writes, said; destruct (truthy (verbosity o)); reflexivity.
  - destruct (probe_closed o h p _ _ _ _ _ _ _ _ Hc Hret Hs Hsret Hset Hg Herr)
      as [-> ->].
    split; [find_event |]. split; [| reflexivity].
    unfold writes, said; destruct (truthy (verbosity o)); reflexivity.
Qed.

Lemma select_failure_counts_as_ready_witness :
  In (EvGetsockopt 3)
     (trace (main "tcping" ["-t"; "1"; "localhost"; "80"]%string w_select_fails)) /\
  writes (trace (main "tcping" ["-t"; "1"; "localhost"; "80"]%string
                   w_select_fails)) =
    [EvWrite stdout (open_text "localhost" "80")] /\
  result (main "tcping" ["-t"; "1"; "localhost"; "80"]%string w_select_fails) =
    Exited 0.
Proof.
  apply (select_failure_counts_as_ready "tcping"
           ["-t"; "1"; "localhost"; "80"]%string
           {| verbosity := 1; timeout_sec := 1; timeout_usec := 0 |}
           "localhost" "80" 80 w_select_fails loopback (-1) (-1) 0 0).
  - exists 3%nat; repeat split; reflexivity.
  - reflexivity.
  - reflexivity.
  - discriminate.
  - reflexivity.
  - discriminate.
  - reflexivity.
Defined.

(** *** Options *)

(** The loop never sets [verbosity] back. *)
Lemma getopt_loop_stays_quiet rets :
  forall o o',
    getopt_loop rets o = LoopDone o' -> verbosity o = 0 -> verbosity o' = 0.
Proof.
  induction rets as [| r rets IH]; intros o o' H Hv; simpl in H.
  - inversion H; subst; exact Hv.
  - destruct r as [c | c optarg |].
    + destruct (Ascii.eqb c "q"); [| discriminate]. eapply IH; eauto.
    + destruct (Ascii.eqb c "t").
      * destruct (strtol optarg); [| discriminate]. eapply IH; eauto.
      * destruct (Ascii.eqb c "u"); [| discriminate].
        destruct (strtol optarg); [| discriminate]. eapply IH; eauto.
    + discriminate.
Qed.

(** Once [-q] has been returned by [getopt], a loop that ends normally
    ends with [verbosity = 0]. *)
Lemma getopt_loop_saw_q rets :
  forall o o',
    In (Opt "q") rets -> getopt_loop rets o = LoopDone o' -> verbosity o' = 0.
Proof.
  induction rets as [| r rets IH]; intros o o' Hin H; [destruct Hin |].
  destruct Hin as [-> | Hin].
  - simpl in H. eapply getopt_loop_stays_quiet; eauto.
  - simpl in H. destruct r as [c | c optarg |].
    + destruct (Ascii.eqb c "q"); [| discriminate]. eapply IH; eauto.
    + destruct (Ascii.eqb c "t").
      * destruct (strtol optarg); [| discriminate]. eapply IH; eauto.
      * destruct (Ascii.eqb c "u"); [| discriminate].
        destruct (strtol optarg); [| discriminate]. eapply IH; eauto.
    + discriminate.
Qed.

Lemma said_quiet f text : said 0 f text = [].
Proof. reflexivity. Qed.

(** X12.  When [-q] is among the options that [getopt] returns, the only
    line the program itself can write is the usage message on stderr,
    which [usage] prints without looking at [verbosity]: this holds
    whether the option loop ends normally or in [usage], and [getopt]'s
    own complaint about an invalid option is the only other output. *)
Theorem quiet_writes_usage_only prog args w f text :
  In (Opt "q") (fst (getopt_seq "qt:u:" args 1)) ->
  In (EvWrite f text) (trace (main prog args w)) ->
  f = stderr /\ text = usage_text prog.
Proof.
  intros Hq.
  assert (Hv : forall o optind, parse args = (LoopDone o, optind) ->
                                verbosity o = 0).
  { unfold parse. destruct (getopt_seq "qt:u:" args 1) as [rets oi].
    intros o optind H; inversion H as [[Hl Ho]].
    eapply getopt_loop_saw_q; eauto. }
  clear Hq.
  main_paths prog args w;
    try match goal with
      | H : invocation _ _ _ _ _ _ |- _ =>
          destruct H as (optind' & Hparse' & _)
      end;
    try match goal with
      | H : parse args = (LoopDone _, _) |- _ => rewrite (Hv _ _ H)
      end;
    rewrite ?said_quiet; intros Hin; split_in; try discriminate;
    match goal with
    | H : EvWrite _ _ = EvWrite _ _ |- _ => inversion H; subst
    end; split; reflexivity.
Qed.

Lemma quiet_writes_usage_only_witness :
  stderr = stderr /\ usage_text "tcping" = usage_text "tcping".
Proof.
  apply (quiet_writes_usage_only "tcping" ["-q"; "-t"; "soon"; "localhost"; "80"]%string
           w_listening stderr (usage_text "tcping")).
  - left. reflexivity.
  - left. reflexivity.
Defined.

(** [main] in terms of the operands that the scan leaves. *)
Lemma resolve_and_probe_operands o prog (words operands : list string) w :
  resolve_and_probe o (prog :: words ++ operands) (S (List.length words)) w =
  resolve_and_probe o (prog :: operands) 1 w.
Proof.
  assert (H0 : nth_error (prog :: words ++ operands) (S (List.length words)) =
               nth_error (prog :: operands) 1).
  { change (nth_error (words ++ operands) (List.length words) =
            nth_error operands 0).
    rewrite nth_error_app2 by lia. now rewrite Nat.sub_diag. }
  assert (H1 : nth_error (prog :: words ++ operands) (S (S (List.length words))) =
               nth_error (prog :: operands) 2).
  { change (nth_error (words ++ operands) (S (List.length words)) =
            nth_error operands 1).
    rewrite nth_error_app2 by lia.
    replace (S (List.length words) - List.length words)%nat with 1%nat by lia.
    reflexivity. }
  unfold resolve_and_probe. rewrite H0, H1. reflexivity.
Qed.

Lemma main_operands prog args w :
  (2 <= List.length args)%nat ->
  main prog args w =
  match getopt_loop (fst (fst (getopt_scan "qt:u:" args))) initial_options with
  | LoopUsage diag =>
      {| trace := diag ++ [EvWrite stderr (usage_text prog)];
         result := Exited (-1) |}
  | LoopDone o =>
      resolve_and_probe o (prog :: snd (getopt_scan "qt:u:" args)) 1 w
  end.
Proof.
  intros Hargc. rewrite (main_loop _ _ _ Hargc), parse_scan, permuted_scan.
  destruct (getopt_loop _ initial_options); [| reflexivity].
  apply resolve_and_probe_operands.
Qed.

(** X13.  A repeated [-t] or [-u] overwrites the earlier one: when the
    first value is a number, the run with [-t a -t b] is the run with
    [-t b] alone, and likewise for [-u]. *)
Theorem last_timeout_option_wins prog a b h p w :
  strtol a <> None -> operand h = true ->
  main prog ["-t"; a; "-t"; b; h; p]%string w =
    main prog ["-t"; b; h; p]%string w /\
  main prog ["-u"; a; "-u"; b; h; p]%string w =
    main prog ["-u"; b; h; p]%string w.
Proof.
  intros Ha Hop. destruct (strtol a) as [s |] eqn:Hs; [clear Ha | congruence].
  split.
  - rewrite !main_operands by (simpl; lia).
    rewrite !getopt_scan_t.
    destruct (getopt_scan "qt:u:" [h; p]) as [[more words] ops].
    cbn [fst snd getopt_loop Ascii.eqb Bool.eqb]. rewrite Hs.
    cbn [getopt_loop Ascii.eqb Bool.eqb].
    destruct (strtol b); reflexivity.
  - rewrite !main_operands by (simpl; lia).
    rewrite !getopt_scan_u.
    destruct (getopt_scan "qt:u:" [h; p]) as [[more words] ops].
    cbn [fst snd getopt_loop Ascii.eqb Bool.eqb]. rewrite Hs.
    cbn [getopt_loop Ascii.eqb Bool.eqb].
    destruct (strtol b); reflexivity.
Qed.

Lemma last_timeout_option_wins_witness :
  main "tcping" ["-t"; "30"; "-t"; "1"; "localhost"; "80"]%string w_silent =
    main "tcping" ["-t"; "1"; "localhost"; "80"]%string w_silent /\
  main "tcping" ["-u"; "30"; "-u"; "1"; "localhost"; "80"]%string w_silent =
    main "tcping" ["-u"; "1"; "localhost"; "80"]%string w_silent.
Proof.
  apply (last_timeout_option_wins "tcping" "30" "1" "localhost" "80" w_silent).
  - discriminate.
  - reflexivity.
Defined.

(** The scan of a last element that looks like an option leaves no
    operand. *)
Lemma getopt_scan_last os p :
  operand p = false -> snd (getopt_scan os [p]) = [].
Proof.
  intros Hp. simpl. rewrite Hp.
  destruct (String.eqb p "--"); [reflexivity |].
  destruct (getopt_cluster os (tail p) None); reflexivity.
Qed.

(** With a host and no port there is no [select]. *)
Lemma no_port_no_select o prog h w nfds tmo :
  ~ In (EvSelect nfds tmo) (trace (resolve_and_probe o [prog; h] 1 w)).
Proof.
  unfold resolve_and_probe. cbn [nth nth_error].
  destruct (w_gethostbyname w h); cbn [trace emit usage exit];
    rewrite ?trace_log; cbn [trace exit]; intros Hin; split_in;
    discriminate.
Qed.

(** X14.  Without [-t] and [-u] the wait has no deadline: on a command
    line made of host and port, with or without [-q], every [select] of
    the run is given a NULL timeout. *)
Theorem no_deadline_by_default prog h p w nfds tmo :
  operand h = true ->
  In (EvSelect nfds tmo) (trace (main prog [h; p] w)) \/
  In (EvSelect nfds tmo) (trace (main prog ["-q"%string; h; p] w)) ->
  tmo = None.
Proof.
  intros Hop.
  rewrite !main_operands by (simpl; lia).
  rewrite getopt_scan_q, (getopt_scan_operand _ h) by assumption.
  destruct (operand p) eqn:Hp.
  - rewrite (getopt_scan_operand _ p) by assumption.
    cbn [getopt_scan fst snd getopt_loop Ascii.eqb Bool.eqb].
    intros [Hin | Hin]; apply resolve_and_probe_selects in Hin; exact Hin.
  - pose proof (getopt_scan_last "qt:u:" p Hp) as Hlast.
    destruct (getopt_scan "qt:u:" [p]) as [[rets words] ops].
    cbn [fst snd] in *. subst ops.
    change (getopt_loop (Opt "q" :: rets) initial_options)
      with (getopt_loop rets (quiet initial_options)).
    intros [Hin | Hin].
    + destruct (getopt_loop rets initial_options) as [o | diag] eqn:Hl.
      * now apply no_port_no_select in Hin.
      * apply getopt_loop_diag in Hl. cbn [trace] in Hin.
        split_in; discriminate.
    + destruct (getopt_loop rets (quiet initial_options)) as [o | diag] eqn:Hl.
      * now apply no_port_no_select in Hin.
      * apply getopt_loop_diag in Hl. cbn [trace] in Hin.
        split_in; discriminate.
Qed.

Lemma no_deadline_by_default_witness : @None timeval = None.
Proof.
  apply (no_deadline_by_default "tcping" "localhost" "80" w_listening 4 None).
  - reflexivity.
  - left. simpl. do 4 right. left. reflexivity.
Defined.

(** X15.  The one run that does not end with an exit code: with at least
    two arguments that the option loop accepts and consumes entirely,
    [argv[optind]] is the NULL that ends [argv], and it is handed to
    [gethostbyname].  In every other case the program exits. *)
Theorem null_host_iff prog args w :
  result (main prog args w) = Undefined <->
  (2 <= List.length args)%nat /\
  exists o optind,
    parse args = (LoopDone o, optind) /\
    nth_error (prog :: args) optind = None.
Proof.
  assert (Hlen : forall optind,
             nth_error (prog :: args) optind = None <->
             nth_error (permuted prog args) optind = None).
  { intros optind. rewrite !nth_error_None, permuted_length. reflexivity. }
  split.
  - main_paths prog args w; intros Hr; try discriminate Hr.
    split; [assumption |]. exists o, optind. split; [assumption |].
    now apply Hlen.
  - intros (Hargc & o & optind & Hparse & Hnone).
    apply Hlen in Hnone.
    rewrite (main_loop _ _ _ Hargc), Hparse.
    unfold resolve_and_probe. now rewrite Hnone.
Qed.

Lemma null_host_iff_witness :
  result (main "tcping" ["-t"; "5"]%string w_listening) = Undefined.
Proof.
  apply (proj2 (null_host_iff "tcping" ["-t"; "5"]%string w_listening)).
  split; [simpl; lia |].
  exists {| verbosity := 1; timeout_sec := 5; timeout_usec := 0 |}, 3%nat.
  split; reflexivity.
Defined.

End TcpingExtra.
